(** * The local filesystem of Arrow (cpp/src/arrow/filesystem/localfs.cc)

    A shallow embedding of the stat normalisation, of the recursive directory
    selector and of the [LocalFileSystem] operations, with the operating
    system and the helper libraries (io_util, io/file) as explicit
    collaborators acting on an abstract world. *)

From Stdlib Require Import ZArith List String Ascii Bool Lia.
Import ListNotations.

Local Open Scope Z_scope.

(** ** Status and Result (arrow/status.h, arrow/result.h) *)

(** The status codes the filesystem layer tells apart: [Status::Invalid] is
    what the path conversion answers, [Status::IOError] what the native calls
    answer; [OtherError] stands for every remaining code. *)
Inductive StatusCode : Type :=
| Invalid
| IOError
| OtherError (n : Z).

(** A status that is not OK. *)
Record Status : Type := mkStatus { code : StatusCode; message : string }.

(** [Result<T>]; a function returning [Status] is a [Result unit]. *)
Inductive Result (A : Type) : Type :=
| Ok (a : A)
| Err (s : Status).
Arguments Ok {A} a.
Arguments Err {A} s.

Definition IsIOError (s : Status) : bool :=
  match code s with IOError => true | _ => false end.

(** [Status::IOError(args...)]: the arguments are streamed one after the
    other into the message. *)
Definition Status_IOError (args : list string) : Status :=
  mkStatus IOError (String.concat "" args).

(** ** 64-bit signed arithmetic *)

(** Reduction of an integer to the range of [int64_t] (two's complement). *)
Definition to_int64 (z : Z) : Z := (z + 2 ^ 63) mod 2 ^ 64 - 2 ^ 63.

(** ** FileType, FileStats, Selector (arrow/filesystem/filesystem.h) *)

Inductive FileType : Type := NonExistent | Unknown | File | Directory.

Definition FileType_eqb (a b : FileType) : bool :=
  match a, b with
  | NonExistent, NonExistent | Unknown, Unknown
  | File, File | Directory, Directory => true
  | _, _ => false
  end.

(** A time point is its count of nanoseconds since the Unix epoch, an
    [int64_t]. *)
Definition TimePoint : Type := Z.

(** Modelled from the spec: the two "no value" sentinels [kNoSize] and
    [kNoTime] are declared in arrow/filesystem/filesystem.h, which is not
    among the sources; the spec only says that they are designated markers.
    They are taken as -1 bytes and -1 nanoseconds. *)
Definition kNoSize : Z := -1.
Definition kNoTime : TimePoint := -1.

Record FileStats : Type := mkFileStats {
  path : string;
  type : FileType;
  size : Z;
  mtime : TimePoint
}.

Definition set_path (p : string) (st : FileStats) : FileStats :=
  mkFileStats p (type st) (size st) (mtime st).
Definition set_type (t : FileType) (st : FileStats) : FileStats :=
  mkFileStats (path st) t (size st) (mtime st).
Definition set_size (n : Z) (st : FileStats) : FileStats :=
  mkFileStats (path st) (type st) n (mtime st).
Definition set_mtime (t : TimePoint) (st : FileStats) : FileStats :=
  mkFileStats (path st) (type st) (size st) t.

(** A default-constructed [FileStats]. Every field the code reads is set
    before it is read, so no result depends on these initial values. *)
Definition FileStats_default : FileStats :=
  mkFileStats "" Unknown kNoSize kNoTime.

Record Selector : Type := mkSelector {
  base_dir : string;
  allow_non_existent : bool;
  recursive : bool;
  max_recursion : Z   (* int32_t *)
}.

Record LocalFileSystemOptions : Type := mkOptions { use_mmap : bool }.

(** ** POSIX: what stat() fills in *)

Record timespec : Type := mkTimespec { tv_sec : Z; tv_nsec : Z }.

(** The fields of [struct stat] that are read. On macOS the time field is
    spelled [st_mtimespec]; it is the same field. *)
Record struct_stat : Type := mkStat {
  st_mode : Z;
  st_size : Z;
  st_mtim : timespec
}.

(** The type bits of [st_mode] and the two tests of <sys/stat.h>. *)
Definition S_IFMT : Z := 0xF000.    (* 0170000 *)
Definition S_IFREG : Z := 0x8000.   (* 0100000 *)
Definition S_IFDIR : Z := 0x4000.   (* 0040000 *)
Definition S_ISREG (m : Z) : bool := Z.land m S_IFMT =? S_IFREG.
Definition S_ISDIR (m : Z) : bool := Z.land m S_IFMT =? S_IFDIR.

(** ** Windows: what GetFileInformationByHandle fills in *)

(** Two unsigned 32-bit halves. *)
Record FILETIME : Type := mkFiletime { dwLowDateTime : Z; dwHighDateTime : Z }.

Record BY_HANDLE_FILE_INFORMATION : Type := mkInfo {
  dwFileAttributes : Z;
  ftLastWriteTime : FILETIME;
  nFileSizeHigh : Z;
  nFileSizeLow : Z
}.

Definition FILE_ATTRIBUTE_DIRECTORY : Z := 0x10.
Definition FILE_ATTRIBUTE_DEVICE : Z := 0x40.
Definition ERROR_FILE_NOT_FOUND : Z := 2.
Definition ERROR_PATH_NOT_FOUND : Z := 3.

(** ** The world and the collaborators *)

(** A computation on the world: it answers a [Result] and leaves the world
    in a new state. Nothing is assumed on how a collaborator changes the
    world, so that every interleaving with other processes is covered. *)
Definition M (World A : Type) : Type := World -> Result A * World.

Definition ret {World A : Type} (a : A) : M World A := fun w => (Ok a, w).

(** [RETURN_NOT_OK] and [ARROW_ASSIGN_OR_RAISE]: a failure ends the
    computation with that failure. *)
Definition bind {World A B : Type} (c : M World A) (k : A -> M World B)
  : M World B :=
  fun w =>
    match c w with
    | (Ok a, w1) => k a w1
    | (Err e, w1) => (Err e, w1)
    end.

(** A [Result] computed without touching the world. *)
Definition lift {World A : Type} (r : Result A) : M World A := fun w => (r, w).

Notation "x <- c ;; k" := (bind c (fun x => k))
  (at level 61, c at next level, right associativity).

Inductive Platform : Type := POSIX | Windows.

(** Everything localfs.cc calls and does not define. [N] is
    [NativePathString] ([std::string] on POSIX, [std::wstring] on Windows),
    [PF] is [PlatformFilename], [IS] an open input file and [OS] an open
    output stream (the objects behind the shared pointers); a file
    descriptor and a [HANDLE] are integers. The two [..._OpenNative] fields
    open a readable file once its name is in native form. *)
Record Env (World N PF IS OS : Type) : Type := mkEnv {
  (* arrow/util/io_util.h: PlatformFilename *)
  FromString : string -> Result PF;
  ToNative : PF -> N;
  ToString : PF -> string;
  Join : PF -> PF -> PF;
  FromNative : N -> PF;
  native_eq_dec : forall a b : N, {a = b} + {a <> b};
  (* arrow/util/io_util.h: directories and files *)
  ListDir : PF -> M World (list PF);
  FileExists : PF -> M World bool;
  CreateDir : PF -> M World unit;
  CreateDirTree : PF -> M World unit;
  DeleteDirTree : PF -> M World bool;
  DeleteDirContents : PF -> M World bool;
  DeleteFile : PF -> M World bool;
  FileOpenWritable : PF -> bool -> bool -> bool -> M World Z;
  FileClose : Z -> M World unit;
  ErrnoMessage : Z -> string;
  WinErrorMessage : Z -> string;
  (* arrow/io/file.h, arrow/filesystem/util_internal.h *)
  MemoryMappedFile_OpenNative : PF -> M World IS;
  ReadableFile_OpenNative : PF -> M World IS;
  FileOutputStream_Open : Z -> M World OS;
  CopyStream : IS -> OS -> Z -> M World unit;
  OutputStream_Close : OS -> M World unit;
  InputStream_Close : IS -> M World unit;
  (* POSIX: stat answers [None] for -1; rename answers its int *)
  errno : World -> Z;
  stat : string -> World -> option struct_stat * World;
  rename : N -> N -> World -> Z * World;
  (* Windows: CreateFileW answers [None] for INVALID_HANDLE_VALUE *)
  GetLastError : World -> Z;
  CreateFileW : N -> World -> option Z * World;
  GetFileInformationByHandle :
    Z -> World -> option BY_HANDLE_FILE_INFORMATION * World;
  CloseHandle : Z -> World -> World;
  MoveFileExW : N -> N -> World -> bool * World;
  CopyFileW : N -> N -> bool -> World -> bool * World
}.

Arguments FromString {World N PF IS OS} e _.
Arguments ToNative {World N PF IS OS} e _.
Arguments ToString {World N PF IS OS} e _.
Arguments Join {World N PF IS OS} e _ _.
Arguments FromNative {World N PF IS OS} e _.
Arguments native_eq_dec {World N PF IS OS} e _ _.
Arguments ListDir {World N PF IS OS} e _ _.
Arguments FileExists {World N PF IS OS} e _ _.
Arguments CreateDir {World N PF IS OS} e _ _.
Arguments CreateDirTree {World N PF IS OS} e _ _.
Arguments DeleteDirTree {World N PF IS OS} e _ _.
Arguments DeleteDirContents {World N PF IS OS} e _ _.
Arguments DeleteFile {World N PF IS OS} e _ _.
Arguments FileOpenWritable {World N PF IS OS} e _ _ _ _ _.
Arguments FileClose {World N PF IS OS} e _ _.
Arguments ErrnoMessage {World N PF IS OS} e _.
Arguments WinErrorMessage {World N PF IS OS} e _.
Arguments MemoryMappedFile_OpenNative {World N PF IS OS} e _ _.
Arguments ReadableFile_OpenNative {World N PF IS OS} e _ _.
Arguments FileOutputStream_Open {World N PF IS OS} e _ _.
Arguments CopyStream {World N PF IS OS} e _ _ _ _.
Arguments OutputStream_Close {World N PF IS OS} e _ _.
Arguments InputStream_Close {World N PF IS OS} e _ _.
Arguments errno {World N PF IS OS} e _.
Arguments stat {World N PF IS OS} e _ _.
Arguments rename {World N PF IS OS} e _ _ _.
Arguments GetLastError {World N PF IS OS} e _.
Arguments CreateFileW {World N PF IS OS} e _ _.
Arguments GetFileInformationByHandle {World N PF IS OS} e _ _.
Arguments CloseHandle {World N PF IS OS} e _ _.
Arguments MoveFileExW {World N PF IS OS} e _ _ _.
Arguments CopyFileW {World N PF IS OS} e _ _ _ _.

Section Helpers.
Context {World N PF IS OS : Type} (env : Env World N PF IS OS).

(** [ErrnoToStatus(args...)]: an IOError whose message is the arguments
    followed by the text of the current [errno]. *)
Definition ErrnoToStatus (w : World) (args : list string) : Status :=
  let err_string := ErrnoMessage env (errno env w) in
  Status_IOError (args ++ [err_string]).

(** [WinErrorToStatus(args...)], with [GetLastError()]. *)
Definition WinErrorToStatus (w : World) (args : list string) : Status :=
  let err_string := WinErrorMessage env (GetLastError env w) in
  Status_IOError (args ++ [err_string]).

(** [NativeToString] (Windows): the string form of the filename built from
    a native path. *)
Definition NativeToString (ns : N) : string := ToString env (FromNative env ns).

(** The failure [StatFile] answers on Windows, written out. *)
Definition querying_failed (bytes_path : string) (w : World) : Status :=
  mkStatus IOError
    ("Failed querying information for path '" ++ bytes_path ++ "'"
     ++ WinErrorMessage env (GetLastError env w)).

(** Modelled from the spec: [io::ReadableFile::Open(path, &file)] lives in
    arrow/io/file.cc, which is not among the sources. The spec has the
    stream collaborators opened by native path, every portable path being
    resolved by the Path Resolver first, a failure of which surfaces
    immediately as the invalid-path error. *)
Definition ReadableFile_Open (path_ : string) : M World IS :=
  fn <- lift (FromString env path_) ;;
  ReadableFile_OpenNative env fn.

(** Modelled from the spec: [io::MemoryMappedFile::Open], as
    [ReadableFile_Open] above; the mode is always [FileMode::READ]. *)
Definition MemoryMappedFile_Open (path_ : string) : M World IS :=
  fn <- lift (FromString env path_) ;;
  MemoryMappedFile_OpenNative env fn.

End Helpers.

(** The three values of [errno] that mean "no such entity" (Linux values
    of <errno.h>; no proof depends on the numbers). *)
Definition ENOENT : Z := 2.
Definition ENOTDIR : Z := 20.
Definition ELOOP : Z := 40.

(** The test [StatFile] makes on [errno], and the one it makes on
    [GetLastError()], under a name. *)
Definition is_missing_errno (e : Z) : bool :=
  (e =? ENOENT) || (e =? ENOTDIR) || (e =? ELOOP).

Definition is_missing_error (e : Z) : bool :=
  (e =? ERROR_FILE_NOT_FOUND) || (e =? ERROR_PATH_NOT_FOUND).

(** ** The Native Stat Adapter: the conversions and StatFile *)

Module Posix.

(** [ToTimePoint(const struct timespec&)]: seconds and nanoseconds to a
    count of nanoseconds, in [int64_t] arithmetic. The duration cast is the
    identity, a [TimePoint] counting nanoseconds already. *)
Definition ToTimePoint (s : timespec) : TimePoint :=
  to_int64 (to_int64 (to_int64 (tv_sec s) * 1000000000) + to_int64 (tv_nsec s)).

(** [StatToFileStat]. [st_size] is an [off_t], whose values all are
    [int64_t] values: the cast keeps it. *)
Definition StatToFileStat (s : struct_stat) : FileStats :=
  let st := FileStats_default in
  let st :=
    if S_ISREG (st_mode s) then
      set_size (st_size s) (set_type File st)
    else if S_ISDIR (st_mode s) then
      set_size kNoSize (set_type Directory st)
    else
      set_size kNoSize (set_type Unknown st) in
  set_mtime (ToTimePoint (st_mtim s)) st.

Section StatFile.
Context {World PF IS OS : Type} (env : Env World string PF IS OS).

(** [StatFile(const std::string&)], POSIX. *)
Definition StatFile (path : string) : M World FileStats :=
  fun w =>
    let st := FileStats_default in
    let '(r, w1) := stat env path w in
    match r with
    | None =>
        if (errno env w1 =? ENOENT) || (errno env w1 =? ENOTDIR)
           || (errno env w1 =? ELOOP)
        then
          let st := set_type NonExistent st in
          let st := set_mtime kNoTime st in
          let st := set_size kNoSize st in
          (Ok (set_path path st), w1)
        else
          (Err (ErrnoToStatus env w1 ["Failed stat()ing path '"; path; "'"]%string),
           w1)
    | Some s =>
        let st := StatToFileStat s in
        (Ok (set_path path st), w1)
    end.

End StatFile.

End Posix.

Module Win32.

(** Hundreds of nanoseconds between January 1, 1601 (UTC) and the Unix
    epoch. *)
Definition kFileTimeEpoch : Z := 11644473600 * 10000000.

Definition ToTimePoint (ft : FILETIME) : TimePoint :=
  let hundreds :=
    to_int64 (to_int64 (to_int64 (Z.shiftl (dwHighDateTime ft) 32)
                        + dwLowDateTime ft) - kFileTimeEpoch) in
  to_int64 (100 * hundreds).

Definition FileInformationToFileStat (info : BY_HANDLE_FILE_INFORMATION)
  : FileStats :=
  let st := FileStats_default in
  let st :=
    if negb (Z.land (dwFileAttributes info) FILE_ATTRIBUTE_DIRECTORY =? 0) then
      set_size kNoSize (set_type Directory st)
    else
      (* Regular file *)
      set_size (to_int64 (to_int64 (Z.shiftl (nFileSizeHigh info) 32)
                          + nFileSizeLow info))
               (set_type File st) in
  set_mtime (ToTimePoint (ftLastWriteTime info)) st.

Section StatFile.
Context {World N PF IS OS : Type} (env : Env World N PF IS OS).

(** [StatFile(const std::wstring&)], Windows. The handle is opened with
    constant access flags, which the model leaves out. *)
Definition StatFile (path : N) : M World FileStats :=
  fun w =>
    let bytes_path := NativeToString env path in
    let st := FileStats_default in
    let '(h, w1) := CreateFileW env path w in
    match h with
    | None =>
        let err := GetLastError env w1 in
        if (err =? ERROR_FILE_NOT_FOUND) || (err =? ERROR_PATH_NOT_FOUND) then
          let st := set_path bytes_path st in
          let st := set_type NonExistent st in
          let st := set_mtime kNoTime st in
          let st := set_size kNoSize st in
          (Ok st, w1)
        else
          (Err (WinErrorToStatus env w1
                  ["Failed querying information for path '"; bytes_path; "'"]%string),
           w1)
    | Some h =>
        let '(info, w2) := GetFileInformationByHandle env h w1 in
        match info with
        | None =>
            let w3 := CloseHandle env h w2 in
            (Err (WinErrorToStatus env w3
                    ["Failed querying information for path '"; bytes_path; "'"]%string),
             w3)
        | Some info =>
            let w3 := CloseHandle env h w2 in
            let st := FileInformationToFileStat info in
            (Ok (set_path bytes_path st), w3)
        end
    end.

End StatFile.

End Win32.

(** ** The Directory Selector: StatSelector *)

Section Selector.
Context {World N PF IS OS : Type} (env : Env World N PF IS OS).
Variable StatFile : N -> M World FileStats.

(** What a call of [StatSelector] leaves: its status, the accumulator
    [*out] and the world. *)
Definition Outcome : Type := (Result unit * list FileStats * World)%type.

(** The test that guards the recursive call. *)
Definition descends (select : Selector) (nesting_depth : Z) (st : FileStats)
  : bool :=
  (nesting_depth <? max_recursion select) && recursive select
  && FileType_eqb (type st) Directory.

(** The loop over the children of [dir_fn]; [self] is the routine itself,
    one level deeper. [st] is moved into [*out] before its type is read
    again; the type of a moved-from [FileStats] is unchanged. *)
Fixpoint StatSelector_children
  (self : PF -> list FileStats -> World -> option Outcome)
  (dir_fn : PF) (select : Selector) (nesting_depth : Z)
  (children : list PF) (out : list FileStats) (w : World) : option Outcome :=
  match children with
  | [] => Some (Ok tt, out, w)
  | child_fn :: rest =>
      let full_fn := Join env dir_fn child_fn in
      match StatFile (ToNative env full_fn) w with
      | (Err e, w1) => Some (Err e, out, w1)
      | (Ok st, w1) =>
          let out1 :=
            if negb (FileType_eqb (type st) NonExistent) then out ++ [st]
            else out in
          if descends select nesting_depth st then
            match self full_fn out1 w1 with
            | None => None
            | Some (Err e, out2, w2) => Some (Err e, out2, w2)
            | Some (Ok _, out2, w2) =>
                StatSelector_children self dir_fn select nesting_depth
                                      rest out2 w2
            end
          else
            StatSelector_children self dir_fn select nesting_depth
                                  rest out1 w1
      end
  end.

(** What [StatSelector] does when [ListDir] has failed with [status]. *)
Definition StatSelector_listing_failed
  (dir_fn : PF) (select : Selector) (status : Status)
  (out : list FileStats) (w : World) : Outcome :=
  if allow_non_existent select && IsIOError status then
    match FileExists env dir_fn w with
    | (Err e, w1) => (Err e, out, w1)
    | (Ok exists_, w1) =>
        if negb exists_ then (Ok tt, out, w1) else (Err status, out, w1)
    end
  else (Err status, out, w).

(** [StatSelector], with the depth of the call stack bounded by [fuel];
    [None] when the bound is hit. The recursive call is made only when
    [nesting_depth < max_recursion], an [int32_t], so [nesting_depth + 1]
    does not overflow. *)
Fixpoint StatSelector_fuel (fuel : nat)
  (dir_fn : PF) (select : Selector) (nesting_depth : Z)
  (out : list FileStats) (w : World) : option Outcome :=
  match fuel with
  | O => None
  | S fuel' =>
      match ListDir env dir_fn w with
      | (Err status, w1) =>
          Some (StatSelector_listing_failed dir_fn select status out w1)
      | (Ok children, w1) =>
          StatSelector_children
            (fun full_fn => StatSelector_fuel fuel' full_fn select
                                              (nesting_depth + 1))
            dir_fn select nesting_depth children out w1
      end
  end.

(** The stack depth a call can need: one frame, and one more for each level
    between [nesting_depth] and [max_recursion]. *)
Definition StatSelector_depth (select : Selector) (nesting_depth : Z) : nat :=
  S (Z.to_nat (max_recursion select - nesting_depth)).

(** [StatSelector]. The bound is always enough ([StatSelector_fuel_enough]
    below), the [None] branch is never taken. *)
Definition StatSelector (dir_fn : PF) (select : Selector) (nesting_depth : Z)
  (out : list FileStats) (w : World) : Outcome :=
  match StatSelector_fuel (StatSelector_depth select nesting_depth)
                          dir_fn select nesting_depth out w with
  | Some r => r
  | None => (Ok tt, out, w)
  end.

(** The loop of [StatSelector] on its own: the children loop, whose
    recursive calls are calls of [StatSelector]. *)
Definition StatSelector_loop (dir_fn : PF) (select : Selector)
  (nesting_depth : Z) (children : list PF) (out : list FileStats) (w : World)
  : Outcome :=
  match StatSelector_children
          (fun full_fn out' w' =>
             Some (StatSelector full_fn select (nesting_depth + 1) out' w'))
          dir_fn select nesting_depth children out w with
  | Some r => r
  | None => (Ok tt, out, w)
  end.

(** The same loop with no recursive call at all: what a listing of the
    direct children alone does. *)
Fixpoint stat_children_only (dir_fn : PF) (children : list PF)
  (out : list FileStats) (w : World) : Outcome :=
  match children with
  | [] => (Ok tt, out, w)
  | child_fn :: rest =>
      match StatFile (ToNative env (Join env dir_fn child_fn)) w with
      | (Err e, w1) => (Err e, out, w1)
      | (Ok st, w1) =>
          stat_children_only dir_fn rest
            (if negb (FileType_eqb (type st) NonExistent) then out ++ [st]
             else out) w1
      end
  end.

Definition list_direct_children (dir_fn : PF) (select : Selector)
  (out : list FileStats) (w : World) : Outcome :=
  match ListDir env dir_fn w with
  | (Err status, w1) => StatSelector_listing_failed dir_fn select status out w1
  | (Ok children, w1) => stat_children_only dir_fn children out w1
  end.

End Selector.

(** ** The Filesystem Facade: LocalFileSystem *)

Module LocalFileSystem.

Section Facade.
Context {World N PF IS OS : Type} (env : Env World N PF IS OS).
Variable platform : Platform.
Variable StatFile : N -> M World FileStats.
Variable options_ : LocalFileSystemOptions.

(** [GetTargetStats(const std::string&)]: StatOne. *)
Definition GetTargetStats (path_ : string) : M World FileStats :=
  fn <- lift (FromString env path_) ;;
  StatFile (ToNative env fn).

(** [GetTargetStats(const Selector&)]: StatSelector. *)
Definition GetTargetStats_Selector (select : Selector)
  : M World (list FileStats) :=
  fn <- lift (FromString env (base_dir select)) ;;
  fun w =>
    match StatSelector env StatFile fn select 0 [] w with
    | (Ok _, results, w1) => (Ok results, w1)
    | (Err e, _, w1) => (Err e, w1)
    end.

Definition CreateDir (path_ : string) (recursive_ : bool)
  : M World unit :=
  fn <- lift (FromString env path_) ;;
  if recursive_ then CreateDirTree env fn else CreateDir env fn.

Definition DeleteDir (path_ : string) : M World unit :=
  fn <- lift (FromString env path_) ;;
  deleted <- DeleteDirTree env fn ;;
  if deleted : bool then ret tt
  else lift (Err (Status_IOError ["Directory does not exist: '"; path_; "'"]%string)).

Definition DeleteDirContents (path_ : string) : M World unit :=
  fn <- lift (FromString env path_) ;;
  deleted <- DeleteDirContents env fn ;;
  if deleted : bool then ret tt
  else lift (Err (Status_IOError ["Directory does not exist: '"; path_; "'"]%string)).

Definition DeleteFile (path_ : string) : M World unit :=
  fn <- lift (FromString env path_) ;;
  deleted <- DeleteFile env fn ;;
  if deleted : bool then ret tt
  else lift (Err (Status_IOError ["File does not exist: '"; path_; "'"]%string)).

Definition Move (src dest : string) : M World unit :=
  sfn <- lift (FromString env src) ;;
  dfn <- lift (FromString env dest) ;;
  fun w =>
    match platform with
    | Windows =>
        let '(moved, w1) := MoveFileExW env (ToNative env sfn) (ToNative env dfn) w in
        if negb moved then
          (Err (WinErrorToStatus env w1
                  ["Failed renaming '"; ToString env sfn; "' to '";
                   ToString env dfn; "': "]%string), w1)
        else (Ok tt, w1)
    | POSIX =>
        let '(r, w1) := rename env (ToNative env sfn) (ToNative env dfn) w in
        if r =? -1 then
          (Err (ErrnoToStatus env w1
                  ["Failed renaming '"; ToString env sfn; "' to '";
                   ToString env dfn; "': "]%string), w1)
        else (Ok tt, w1)
    end.

(** [OpenInputStreamGeneric]: the path goes to the stream class as the
    string it is; the stream class resolves it. *)
Definition OpenInputStreamGeneric (path_ : string)
  (options : LocalFileSystemOptions) : M World IS :=
  if use_mmap options then
    file <- MemoryMappedFile_Open env path_ ;; ret file
  else
    file <- ReadableFile_Open env path_ ;; ret file.

Definition OpenInputStream (path_ : string) : M World IS :=
  OpenInputStreamGeneric path_ options_.

Definition OpenInputFile (path_ : string) : M World IS :=
  OpenInputStreamGeneric path_ options_.

Definition OpenOutputStreamGeneric (path_ : string) (truncate append : bool)
  : M World OS :=
  let write_only := true in
  fn <- lift (FromString env path_) ;;
  fd <- FileOpenWritable env fn write_only truncate append ;;
  fun w =>
    match FileOutputStream_Open env fd w with
    | (Err st, w1) =>
        let '(_, w2) := FileClose env fd w1 in
        (Err st, w2)
    | (Ok stream, w1) => (Ok stream, w1)
    end.

Definition OpenOutputStream (path_ : string) : M World OS :=
  let truncate := true in
  let append := false in
  OpenOutputStreamGeneric path_ truncate append.

Definition OpenAppendStream (path_ : string) : M World OS :=
  let truncate := false in
  let append := true in
  OpenOutputStreamGeneric path_ truncate append.

Definition CopyFile (src dest : string) : M World unit :=
  sfn <- lift (FromString env src) ;;
  dfn <- lift (FromString env dest) ;;
  if native_eq_dec env (ToNative env sfn) (ToNative env dfn) then ret tt
  else
    match platform with
    | Windows =>
        fun w =>
          let '(copied, w1) :=
            CopyFileW env (ToNative env sfn) (ToNative env dfn) false w in
          if negb copied then
            (Err (WinErrorToStatus env w1
                    ["Failed copying '"; ToString env sfn; "' to '";
                     ToString env dfn; "': "]%string), w1)
          else (Ok tt, w1)
    | POSIX =>
        is_ <- OpenInputStream src ;;
        os <- OpenOutputStream dest ;;
        _ <- CopyStream env is_ os (1024 * 1024) ;;
        _ <- OutputStream_Close env os ;;
        InputStream_Close env is_
    end.

End Facade.

End LocalFileSystem.

(** ** A small concrete world

    A fixed tree, on which the operations can be run:
    [/tmp/t] holds the file [a] (10 bytes) and the directory [b], which
    holds the file [c] (5 bytes); [/tmp/sock] is a socket; nothing below
    [/root] can be looked at; everything else is missing. The world itself
    only keeps the last error number, the path of the last handle opened
    and a journal of the native calls made. *)

Module Demo.

Local Open Scope string_scope.

Record World : Type := mkWorld {
  w_errno : Z;
  w_handle : string;
  journal : list string
}.

Definition w0 : World := mkWorld 0 "" [].

Definition note (call : string) (w : World) : World :=
  mkWorld (w_errno w) (w_handle w) (journal w ++ [call]).

Definition fail_with (e : Z) (w : World) : World :=
  mkWorld e (w_handle w) (journal w).

Inductive Node : Type :=
| NFile (bytes : Z)
| NDir (children : list string)
| NSocket
| NDenied
| NMissing.

Definition lookup (p : string) : Node :=
  if String.eqb p "/tmp/t" then NDir ["a"; "b"]
  else if String.eqb p "/tmp/t/a" then NFile 10
  else if String.eqb p "/tmp/t/b" then NDir ["c"]
  else if String.eqb p "/tmp/t/b/c" then NFile 5
  else if String.eqb p "/tmp/sock" then NSocket
  else if String.eqb p "/root/x" then NDenied
  else NMissing.

Definition EACCES : Z := 13.
Definition ERROR_ACCESS_DENIED : Z := 5.
Definition S_IFSOCK : Z := 0xC000.

Fixpoint has_nul (s : string) : bool :=
  match s with
  | EmptyString => false
  | String c s' => Ascii.eqb c "000"%char || has_nul s'
  end.

Definition backslash : ascii := ascii_of_nat 92.

(** The separators of a Windows path written the generic way. *)
Fixpoint GenericSlashes (s : string) : string :=
  match s with
  | EmptyString => EmptyString
  | String c s' =>
      String (if Ascii.eqb c backslash then "/"%char else c) (GenericSlashes s')
  end.

Definition FromString (p : string) : Result string :=
  if has_nul p then
    Err (mkStatus Invalid ("Embedded NUL char in file name: '" ++ p ++ "'"))
  else Ok p.

Definition mtime_of (p : string) : timespec := mkTimespec 1600000000 0.

Definition stat (p : string) (w : World) : option struct_stat * World :=
  let w := note ("stat " ++ p) w in
  match lookup p with
  | NFile n => (Some (mkStat (Z.lor S_IFREG 0x1A4) n (mtime_of p)), w)
  | NDir _ => (Some (mkStat (Z.lor S_IFDIR 0x1ED) 4096 (mtime_of p)), w)
  | NSocket => (Some (mkStat (Z.lor S_IFSOCK 0x1ED) 0 (mtime_of p)), w)
  | NDenied => (None, fail_with EACCES w)
  | NMissing => (None, fail_with ENOENT w)
  end.

Definition ListDir (p : string) : M World (list string) :=
  fun w =>
    let w := note ("ListDir " ++ p) w in
    match lookup p with
    | NDir names => (Ok names, w)
    | _ => (Err (mkStatus IOError ("Cannot list directory '" ++ p ++ "'")), w)
    end.

Definition FileExists (p : string) : M World bool :=
  fun w =>
    let w := note ("FileExists " ++ p) w in
    match lookup p with
    | NDenied =>
        (Err (mkStatus IOError ("Failed getting information for path '" ++ p ++ "'")),
         w)
    | NMissing => (Ok false, w)
    | _ => (Ok true, w)
    end.

Definition is_dir (p : string) : bool :=
  match lookup p with NDir _ => true | _ => false end.

Definition is_file (p : string) : bool :=
  match lookup p with NFile _ => true | _ => false end.

Definition call (name : string) (p : string) {A : Type} (r : Result A)
  : M World A :=
  fun w => (r, note (name ++ " " ++ p) w).

Definition CreateFileW (p : string) (w : World) : option Z * World :=
  let w := note ("CreateFileW " ++ p) w in
  match lookup p with
  | NDenied => (None, fail_with ERROR_ACCESS_DENIED w)
  | NMissing => (None, fail_with ERROR_FILE_NOT_FOUND w)
  | _ => (Some 1, mkWorld (w_errno w) p (journal w))
  end.

Definition GetFileInformationByHandle (h : Z) (w : World)
  : option BY_HANDLE_FILE_INFORMATION * World :=
  let ft := mkFiletime 0 0x01D68000 in
  match lookup (w_handle w) with
  | NFile n => (Some (mkInfo 0x20 ft 0 n), w)
  | NDir _ => (Some (mkInfo FILE_ATTRIBUTE_DIRECTORY ft 0 0), w)
  | _ => (Some (mkInfo FILE_ATTRIBUTE_DEVICE ft 0 0), w)
  end.

Definition ErrnoMessage (e : Z) : string :=
  if (e =? ENOENT)%Z then "No such file or directory"
  else if (e =? EACCES)%Z then "Permission denied"
  else "Unknown error".

Definition WinErrorMessage (e : Z) : string :=
  if (e =? ERROR_FILE_NOT_FOUND)%Z then "The system cannot find the file specified."
  else if (e =? ERROR_ACCESS_DENIED)%Z then "Access is denied."
  else "Unknown error".

(** A rename or a copy goes through when its source is there. *)
Definition rename (a b : string) (w : World) : Z * World :=
  let w := note ("rename " ++ a ++ " " ++ b) w in
  match lookup a with
  | NMissing => (-1, fail_with ENOENT w)
  | NDenied => (-1, fail_with EACCES w)
  | _ => (0, w)
  end.

Definition MoveFileExW (a b : string) (w : World) : bool * World :=
  let w := note ("MoveFileExW " ++ a ++ " " ++ b) w in
  match lookup a with
  | NMissing => (false, fail_with ERROR_FILE_NOT_FOUND w)
  | NDenied => (false, fail_with ERROR_ACCESS_DENIED w)
  | _ => (true, w)
  end.

Definition CopyFileW (a b : string) (fail_if_exists : bool) (w : World)
  : bool * World :=
  let w := note ("CopyFileW " ++ a ++ " " ++ b) w in
  if is_file a then (true, w) else (false, fail_with ERROR_FILE_NOT_FOUND w).

Definition open_readable (name p : string) : M World string :=
  call name p
    (if is_file p then Ok p
     else Err (mkStatus IOError ("Failed to open local file '" ++ p ++ "'"))).

Definition env : Env World string string string Z :=
  mkEnv World string string string Z
    FromString
    (fun fn => fn)                               (* ToNative *)
    GenericSlashes                               (* ToString *)
    (fun dir child => dir ++ "/" ++ child)       (* Join *)
    (fun ns => ns)                               (* FromNative *)
    string_dec
    ListDir
    FileExists
    (fun p => call "CreateDir" p (Ok tt))
    (fun p => call "CreateDirTree" p (Ok tt))
    (fun p => call "DeleteDirTree" p (Ok (is_dir p)))
    (fun p => call "DeleteDirContents" p (Ok (is_dir p)))
    (fun p => call "DeleteFile" p (Ok (is_file p)))
    (fun p _ _ _ => call "FileOpenWritable" p (Ok 3))
    (fun fd => call "FileClose" "fd" (Ok tt))
    ErrnoMessage
    WinErrorMessage
    (open_readable "MemoryMappedFile")
    (open_readable "ReadableFile")
    (fun fd => call "FileOutputStream" "fd" (Ok fd))
    (fun is_ os chunk => call "CopyStream" is_ (Ok tt))
    (fun os => call "OutputStream::Close" "fd" (Ok tt))
    (fun is_ => call "InputStream::Close" is_ (Ok tt))
    w_errno
    stat
    rename
    w_errno
    CreateFileW
    GetFileInformationByHandle
    (fun h w => note "CloseHandle" w)
    MoveFileExW
    CopyFileW.

(** The filesystem of each platform over this world. *)
Definition posix_stat : string -> M World FileStats := Posix.StatFile env.
Definition win32_stat : string -> M World FileStats := Win32.StatFile env.

Definition select_t (allow rec : bool) (depth : Z) : Selector :=
  mkSelector "/tmp/t" allow rec depth.

(** A path the resolver refuses: it holds a NUL character. *)
Definition bad_path : string := String "000"%char "a".

(** A socket, as [stat] reports it. *)
Definition socket_stat : struct_stat :=
  mkStat (Z.lor S_IFSOCK 0x1ED) 0 (mkTimespec 1 0).

(** A device, as [GetFileInformationByHandle] reports it. *)
Definition device_info : BY_HANDLE_FILE_INFORMATION :=
  mkInfo FILE_ATTRIBUTE_DEVICE (mkFiletime 0 0x01D68000) 0 0.

End Demo.

(** ** Notions for the further properties *)

Section Levels.
Context {World N PF IS OS : Type} (env : Env World N PF IS OS).


(** The failures the collaborators of the selector answer. *)
Definition answered_by_collaborator
  (StatFile : N -> M World FileStats) (e : Status) : Prop :=
  (exists dir w w1, ListDir env dir w = (Err e, w1))
  \/ (exists dir w w1, FileExists env dir w = (Err e, w1))
  \/ (exists n w w1, StatFile n w = (Err e, w1)).

(** [framed f]: [f] only appends to its accumulator, and what it appends
    does not depend on what was there. *)
Definition framed (f : list FileStats -> World -> option (Outcome (World := World)))
  : Prop :=
  forall out w,
    f out w = match f [] w with
              | Some (r, new, w') => Some (r, out ++ new, w')
              | None => None
              end.

(** [vanished_along StatFile dir children w w']: stated one after the
    other from the world [w], the entries [children] of [dir] are all
    answered [NonExistent], and the world is [w'] after the last. *)
Inductive vanished_along (StatFile : N -> M World FileStats) (dir : PF)
  : list PF -> World -> World -> Prop :=
| vanished_nil (w : World) : vanished_along StatFile dir [] w w
| vanished_cons (child : PF) (rest : list PF) (w w1 w' : World)
    (st : FileStats) :
    StatFile (ToNative env (Join env dir child)) w = (Ok st, w1) ->
    type st = NonExistent ->
    vanished_along StatFile dir rest w1 w' ->
    vanished_along StatFile dir (child :: rest) w w'.

End Levels.


(** The count of a [FILETIME]: hundreds of nanoseconds since 1601. *)
Definition filetime_count (ft : FILETIME) : Z :=
  dwHighDateTime ft * 2 ^ 32 + dwLowDateTime ft.

(** The [FILETIME] of a count. *)
Definition filetime_of (t : Z) : FILETIME :=
  mkFiletime (t mod 2 ^ 32) (t / 2 ^ 32).

(** The time stamps whose count of nanoseconds fits an [int64_t]. *)
Definition timespec_in_range (s : timespec) : Prop :=
  -9223372036 <= tv_sec s <= 9223372035 /\ 0 <= tv_nsec s < 1000000000.

(** The instants both platforms can stamp: a [FILETIME] is two unsigned
    halves, and its distance to the Unix epoch, taken to nanoseconds, must
    fit an [int64_t]. *)
Definition filetime_in_range (ft : FILETIME) : Prop :=
  0 <= dwLowDateTime ft < 2 ^ 32
  /\ 0 <= dwHighDateTime ft < 2 ^ 31
  /\ -92233720368547758 <= filetime_count ft - Win32.kFileTimeEpoch
     <= 92233720368547758.

(** The concrete world again, with a stream class that cannot build a
    stream on a descriptor. *)
Definition env_broken_stream : Env Demo.World string string string Z :=
  let e := Demo.env in
  mkEnv Demo.World string string string Z
    (FromString e) (ToNative e) (ToString e) (Join e) (FromNative e)
    (native_eq_dec e) (ListDir e) (FileExists e) (CreateDir e)
    (CreateDirTree e) (DeleteDirTree e) (DeleteDirContents e) (DeleteFile e)
    (FileOpenWritable e) (FileClose e) (ErrnoMessage e) (WinErrorMessage e)
    (MemoryMappedFile_OpenNative e) (ReadableFile_OpenNative e)
    (fun fd => Demo.call "FileOutputStream" "fd"
                 (Err (mkStatus IOError "Invalid file descriptor")))
    (CopyStream e) (OutputStream_Close e) (InputStream_Close e)
    (errno e) (stat e) (rename e) (GetLastError e) (CreateFileW e)
    (GetFileInformationByHandle e) (CloseHandle e) (MoveFileExW e)
    (CopyFileW e).

(** The concrete world again, with a listing that is out of date: it
    names two entries that are no longer there, except for [/tmp/empty],
    whose listing is empty. *)
Definition env_stale_listing : Env Demo.World string string string Z :=
  let e := Demo.env in
  mkEnv Demo.World string string string Z
    (FromString e) (ToNative e) (ToString e) (Join e) (FromNative e)
    (native_eq_dec e)
    (fun p => Demo.call "ListDir" p
                (Ok (if String.eqb p "/tmp/empty" then []
                     else ["gone"; "lost"]%string)))
    (FileExists e) (CreateDir e)
    (CreateDirTree e) (DeleteDirTree e) (DeleteDirContents e) (DeleteFile e)
    (FileOpenWritable e) (FileClose e) (ErrnoMessage e) (WinErrorMessage e)
    (MemoryMappedFile_OpenNative e) (ReadableFile_OpenNative e)
    (FileOutputStream_Open e)
    (CopyStream e) (OutputStream_Close e) (InputStream_Close e)
    (errno e) (stat e) (rename e) (GetLastError e) (CreateFileW e)
    (GetFileInformationByHandle e) (CloseHandle e) (MoveFileExW e)
    (CopyFileW e).

(** * Properties *)

(** ** The monad *)

Section MonadFacts.
Context {World A B : Type}.

Lemma bind_lift_Err (e : Status) (k : A -> M World B) (w : World) :
  bind (lift (Err e)) k w = (Err e, w).
Proof. reflexivity. Qed.

Lemma bind_lift_Ok (a : A) (k : A -> M World B) (w : World) :
  bind (lift (Ok a)) k w = k a w.
Proof. reflexivity. Qed.

Lemma bind_Ok (c : M World A) (k : A -> M World B) (w w1 : World) (a : A) :
  c w = (Ok a, w1) -> bind c k w = k a w1.
Proof. intros H. unfold bind. now rewrite H. Qed.

Lemma bind_Err (c : M World A) (k : A -> M World B) (w w1 : World) (e : Status) :
  c w = (Err e, w1) -> bind c k w = (Err e, w1).
Proof. intros H. unfold bind. now rewrite H. Qed.

End MonadFacts.

Lemma FileType_eqb_eq (a b : FileType) : FileType_eqb a b = true <-> a = b.
Proof. destruct a, b; simpl; split; congruence. Qed.

Lemma FileType_eqb_neq (a b : FileType) : FileType_eqb a b = false <-> a <> b.
Proof. destruct a, b; simpl; split; congruence. Qed.

(** ** The selector terminates and satisfies the equations of the source *)

Section SelectorFacts.
Context {World N PF IS OS : Type} (env : Env World N PF IS OS).
Variable StatFile : N -> M World FileStats.
Variable select : Selector.

Local Notation "'children_loop'" := (StatSelector_children env StatFile).
Local Notation "'with_fuel'" := (StatSelector_fuel env StatFile).

Lemma descends_below (d : Z) (st : FileStats) :
  descends select d st = true -> d < max_recursion select.
Proof.
  unfold descends. intros H.
  apply andb_prop in H as [H _]. apply andb_prop in H as [H _].
  now apply Z.ltb_lt.
Qed.

(** The loop answers as soon as the deeper call does, whenever it is made. *)
Lemma StatSelector_children_total self dir_fn d children :
  (d < max_recursion select ->
   forall full out w, exists r, self full out w = Some r) ->
  forall out w, exists r,
    children_loop self dir_fn select d children out w = Some r.
Proof.
  intros Hself. induction children as [|child rest IH]; intros out w; simpl.
  - eauto.
  - destruct (StatFile _ w) as [[st|e] w1]; [|eauto].
    destruct (descends select d st) eqn:D; [|apply IH].
    destruct (Hself (descends_below _ _ D) (Join env dir_fn child)
                (if negb (FileType_eqb (type st) NonExistent)
                 then out ++ [st] else out) w1) as [[[[u|e] out2] w2] ->];
      [apply IH | eauto].
Qed.

(** Two deeper routines that agree wherever they are called give the same
    loop. *)
Lemma StatSelector_children_agree self self' dir_fn d children :
  (d < max_recursion select ->
   forall full out w, self full out w = self' full out w) ->
  forall out w,
    children_loop self dir_fn select d children out w
    = children_loop self' dir_fn select d children out w.
Proof.
  intros Hself. induction children as [|child rest IH]; intros out w; simpl.
  - reflexivity.
  - destruct (StatFile _ w) as [[st|e] w1]; [|reflexivity].
    destruct (descends select d st) eqn:D; [|apply IH].
    rewrite (Hself (descends_below _ _ D)).
    destruct (self' _ _ w1) as [[[[u|e] out2] w2]|]; auto.
Qed.

Lemma StatSelector_depth_succ (d : Z) :
  d < max_recursion select ->
  StatSelector_depth select d = S (StatSelector_depth select (d + 1)).
Proof.
  intros H. unfold StatSelector_depth. f_equal.
  rewrite <- Z2Nat.inj_succ by lia. f_equal. lia.
Qed.

(** More fuel than needed changes nothing. *)
Lemma StatSelector_fuel_more (fuel : nat) :
  forall dir_fn d out w,
    (StatSelector_depth select d <= fuel)%nat ->
    with_fuel fuel dir_fn select d out w
    = with_fuel (StatSelector_depth select d) dir_fn select d out w.
Proof.
  induction fuel as [|fuel IH]; intros dir_fn d out w Hle.
  - unfold StatSelector_depth in Hle. lia.
  - change (StatSelector_depth select d)
      with (S (Z.to_nat (max_recursion select - d))).
    simpl. destruct (ListDir env dir_fn w) as [[children|status] w1];
      [|reflexivity].
    apply StatSelector_children_agree. intros Hd full out' w'.
    rewrite StatSelector_depth_succ in Hle by assumption.
    rewrite IH by lia.
    replace (Z.to_nat (max_recursion select - d))
      with (StatSelector_depth select (d + 1)); [reflexivity|].
    unfold StatSelector_depth. rewrite <- Z2Nat.inj_succ by lia. f_equal. lia.
Qed.

(** [StatSelector] always answers: the recursion is bounded by
    [max_recursion]. *)
Lemma StatSelector_fuel_total (fuel : nat) :
  forall dir_fn d out w,
    (StatSelector_depth select d <= fuel)%nat ->
    exists r, with_fuel fuel dir_fn select d out w = Some r.
Proof.
  induction fuel as [|fuel IH]; intros dir_fn d out w Hle.
  - unfold StatSelector_depth in Hle. lia.
  - simpl. destruct (ListDir env dir_fn w) as [[children|status] w1];
      [|eauto].
    apply StatSelector_children_total. intros Hd full out' w'.
    apply IH. rewrite StatSelector_depth_succ in Hle by assumption. lia.
Qed.

Lemma StatSelector_fuel_enough (fuel : nat) dir_fn d out w :
  (StatSelector_depth select d <= fuel)%nat ->
  with_fuel fuel dir_fn select d out w
  = Some (StatSelector env StatFile dir_fn select d out w).
Proof.
  intros Hle. rewrite StatSelector_fuel_more by assumption.
  unfold StatSelector.
  destruct (StatSelector_fuel_total _ dir_fn d out w (Nat.le_refl _)) as [r ->].
  reflexivity.
Qed.

(** The loop of the source always answers too. *)
Lemma StatSelector_loop_Some dir_fn d children out w :
  children_loop
    (fun full out' w' =>
       Some (StatSelector env StatFile full select (d + 1) out' w'))
    dir_fn select d children out w
  = Some (StatSelector_loop env StatFile dir_fn select d children out w).
Proof.
  unfold StatSelector_loop.
  destruct (StatSelector_children_total
              (fun full out' w' =>
                 Some (StatSelector env StatFile full select (d + 1) out' w'))
              dir_fn d children) with (out := out) (w := w) as [r ->]; eauto.
Qed.

(** The body of [StatSelector], as the source has it. *)
Lemma StatSelector_eq dir_fn d out w :
  StatSelector env StatFile dir_fn select d out w
  = match ListDir env dir_fn w with
    | (Err status, w1) =>
        StatSelector_listing_failed env dir_fn select status out w1
    | (Ok children, w1) =>
        StatSelector_loop env StatFile dir_fn select d children out w1
    end.
Proof.
  pose proof (StatSelector_fuel_enough _ dir_fn d out w (Nat.le_refl _)) as H.
  unfold StatSelector_depth in H. simpl in H.
  destruct (ListDir env dir_fn w) as [[children|status] w1].
  - rewrite (StatSelector_children_agree _
               (fun full out' w' =>
                  Some (StatSelector env StatFile full select (d + 1) out' w')))
      in H.
    + rewrite StatSelector_loop_Some in H. congruence.
    + intros Hd full out' w'. apply StatSelector_fuel_enough.
      unfold StatSelector_depth. lia.
  - congruence.
Qed.

(** One turn of the loop, as the source has it. *)
Lemma StatSelector_loop_cons dir_fn d child rest out w :
  StatSelector_loop env StatFile dir_fn select d (child :: rest) out w
  = let full_fn := Join env dir_fn child in
    match StatFile (ToNative env full_fn) w with
    | (Err e, w1) => (Err e, out, w1)
    | (Ok st, w1) =>
        let out1 := if negb (FileType_eqb (type st) NonExistent)
                    then out ++ [st] else out in
        if descends select d st then
          match StatSelector env StatFile full_fn select (d + 1) out1 w1 with
          | (Err e, out2, w2) => (Err e, out2, w2)
          | (Ok _, out2, w2) =>
              StatSelector_loop env StatFile dir_fn select d rest out2 w2
          end
        else StatSelector_loop env StatFile dir_fn select d rest out1 w1
    end.
Proof.
  unfold StatSelector_loop at 1. simpl.
  destruct (StatFile _ w) as [[st|e] w1]; [|reflexivity].
  destruct (descends select d st).
  - destruct (StatSelector env StatFile _ select (d + 1) _ w1)
      as [[[u|e] out2] w2]; [|reflexivity].
    now rewrite StatSelector_loop_Some.
  - now rewrite StatSelector_loop_Some.
Qed.

Lemma StatSelector_loop_nil dir_fn d out w :
  StatSelector_loop env StatFile dir_fn select d [] out w = (Ok tt, out, w).
Proof. reflexivity. Qed.

(** Where the guard of the recursive call is false for every entry, the loop
    is the listing of the direct children. *)
Lemma StatSelector_loop_flat dir_fn d children :
  (forall st, descends select d st = false) ->
  forall out w,
    StatSelector_loop env StatFile dir_fn select d children out w
    = stat_children_only env StatFile dir_fn children out w.
Proof.
  intros Hno. induction children as [|child rest IH]; intros out w.
  - reflexivity.
  - rewrite StatSelector_loop_cons. simpl.
    destruct (StatFile _ w) as [[st|e] w1]; [|reflexivity].
    rewrite Hno. apply IH.
Qed.

End SelectorFacts.

(** ** The two stat conversions *)

Lemma S_ISREG_not_dir (m : Z) : S_ISREG m = true -> S_ISDIR m = false.
Proof.
  unfold S_ISREG, S_ISDIR. intros H. apply Z.eqb_eq in H. rewrite H.
  reflexivity.
Qed.

Lemma StatToFileStat_cases (s : struct_stat) :
  Posix.StatToFileStat s
  = mkFileStats ""
      (if S_ISREG (st_mode s) then File
       else if S_ISDIR (st_mode s) then Directory else Unknown)
      (if S_ISREG (st_mode s) then st_size s else kNoSize)
      (Posix.ToTimePoint (st_mtim s)).
Proof.
  unfold Posix.StatToFileStat.
  destruct (S_ISREG (st_mode s)); [reflexivity|].
  destruct (S_ISDIR (st_mode s)); reflexivity.
Qed.

Lemma FileInformationToFileStat_cases (info : BY_HANDLE_FILE_INFORMATION) :
  Win32.FileInformationToFileStat info
  = mkFileStats ""
      (if Z.land (dwFileAttributes info) FILE_ATTRIBUTE_DIRECTORY =? 0
       then File else Directory)
      (if Z.land (dwFileAttributes info) FILE_ATTRIBUTE_DIRECTORY =? 0
       then to_int64 (to_int64 (Z.shiftl (nFileSizeHigh info) 32)
                      + nFileSizeLow info)
       else kNoSize)
      (Win32.ToTimePoint (ftLastWriteTime info)).
Proof.
  unfold Win32.FileInformationToFileStat.
  destruct (Z.land _ _ =? 0); reflexivity.
Qed.

(** A size of less than 2^63 bytes is its two halves put together. *)
Lemma file_size_of_halves (hi lo : Z) :
  0 <= hi < 2 ^ 31 -> 0 <= lo < 2 ^ 32 ->
  to_int64 (to_int64 (Z.shiftl hi 32) + lo) = hi * 2 ^ 32 + lo.
Proof.
  intros Hhi Hlo. rewrite Z.shiftl_mul_pow2 by lia.
  assert (Hid : forall z, - 2 ^ 63 <= z < 2 ^ 63 -> to_int64 z = z).
  { intros z Hz. unfold to_int64. rewrite Z.mod_small; lia. }
  rewrite (Hid (hi * 2 ^ 32)) by lia. apply Hid. lia.
Qed.

(** ** StatFile, case by case *)

Section PosixFacts.
Context {World PF IS OS : Type} (env : Env World string PF IS OS).

Lemma Posix_StatFile_failed path_ w w1 :
  stat env path_ w = (None, w1) ->
  Posix.StatFile env path_ w
  = if is_missing_errno (errno env w1)
    then (Ok (mkFileStats path_ NonExistent kNoSize kNoTime), w1)
    else (Err (mkStatus IOError
                 ("Failed stat()ing path '" ++ path_ ++ "'"
                  ++ ErrnoMessage env (errno env w1))), w1).
Proof.
  intros H. unfold Posix.StatFile, is_missing_errno. rewrite H.
  destruct (_ || _); reflexivity.
Qed.

Lemma Posix_StatFile_found path_ w w1 s :
  stat env path_ w = (Some s, w1) ->
  Posix.StatFile env path_ w
  = (Ok (set_path path_ (Posix.StatToFileStat s)), w1).
Proof. intros H. unfold Posix.StatFile. now rewrite H. Qed.

(** Every answer of [StatFile] is one of the two above. *)
Lemma Posix_StatFile_Ok path_ w w1 st :
  Posix.StatFile env path_ w = (Ok st, w1) ->
  (stat env path_ w = (None, w1)
   /\ is_missing_errno (errno env w1) = true
   /\ st = mkFileStats path_ NonExistent kNoSize kNoTime)
  \/ (exists s, stat env path_ w = (Some s, w1)
      /\ st = set_path path_ (Posix.StatToFileStat s)).
Proof.
  intros H. destruct (stat env path_ w) as [[s|] w'] eqn:E.
  - rewrite (Posix_StatFile_found _ _ _ _ E) in H. inversion H; subst.
    right. eauto.
  - rewrite (Posix_StatFile_failed _ _ _ E) in H.
    destruct (is_missing_errno _) eqn:M; inversion H; subst. left. auto.
Qed.

End PosixFacts.

Section Win32Facts.
Context {World N PF IS OS : Type} (env : Env World N PF IS OS).

Lemma Win32_StatFile_no_handle path_ w w1 :
  CreateFileW env path_ w = (None, w1) ->
  Win32.StatFile env path_ w
  = if is_missing_error (GetLastError env w1)
    then (Ok (mkFileStats (NativeToString env path_) NonExistent
                          kNoSize kNoTime), w1)
    else (Err (querying_failed env (NativeToString env path_) w1), w1).
Proof.
  intros H. unfold Win32.StatFile, is_missing_error. rewrite H.
  destruct (_ || _); reflexivity.
Qed.

Lemma Win32_StatFile_no_info path_ w w1 w2 h :
  CreateFileW env path_ w = (Some h, w1) ->
  GetFileInformationByHandle env h w1 = (None, w2) ->
  Win32.StatFile env path_ w
  = (Err (querying_failed env (NativeToString env path_) (CloseHandle env h w2)),
     CloseHandle env h w2).
Proof. intros H1 H2. unfold Win32.StatFile. now rewrite H1, H2. Qed.

Lemma Win32_StatFile_found path_ w w1 w2 h info :
  CreateFileW env path_ w = (Some h, w1) ->
  GetFileInformationByHandle env h w1 = (Some info, w2) ->
  Win32.StatFile env path_ w
  = (Ok (set_path (NativeToString env path_)
                  (Win32.FileInformationToFileStat info)),
     CloseHandle env h w2).
Proof. intros H1 H2. unfold Win32.StatFile. now rewrite H1, H2. Qed.

Lemma Win32_StatFile_Ok path_ w w' st :
  Win32.StatFile env path_ w = (Ok st, w') ->
  (CreateFileW env path_ w = (None, w')
   /\ is_missing_error (GetLastError env w') = true
   /\ st = mkFileStats (NativeToString env path_) NonExistent kNoSize kNoTime)
  \/ (exists h w1 w2 info,
        CreateFileW env path_ w = (Some h, w1)
        /\ GetFileInformationByHandle env h w1 = (Some info, w2)
        /\ w' = CloseHandle env h w2
        /\ st = set_path (NativeToString env path_)
                         (Win32.FileInformationToFileStat info)).
Proof.
  intros H. destruct (CreateFileW env path_ w) as [[h|] w1] eqn:E1.
  - destruct (GetFileInformationByHandle env h w1) as [[info|] w2] eqn:E2.
    + rewrite (Win32_StatFile_found _ _ _ _ _ _ E1 E2) in H.
      inversion H; subst. right. exists h, w1, w2, info. auto.
    + rewrite (Win32_StatFile_no_info _ _ _ _ _ E1 E2) in H. discriminate.
  - rewrite (Win32_StatFile_no_handle _ _ _ E1) in H.
    destruct (is_missing_error _) eqn:M; inversion H; subst. left. auto.
Qed.

End Win32Facts.

(** ** Claims on the Native Stat Adapter *)

(** C2, as the code has it. In every record [StatFile] answers, on POSIX
    and on Windows: the size is the no-value sentinel whenever the type is
    not [File], and a [File] carries the reported length; the time is the
    no-value sentinel when the type is [NonExistent], and every other
    record, [Unknown] included, carries the native modification time. *)
Theorem StatFile_sentinels :
  forall (World N PF IS OS : Type)
         (penv : Env World string PF IS OS) (wenv : Env World N PF IS OS),
    (forall path_ w w1 st,
        Posix.StatFile penv path_ w = (Ok st, w1) ->
        (type st <> File -> size st = kNoSize)
        /\ (type st = NonExistent -> mtime st = kNoTime)
        /\ (type st <> NonExistent ->
            exists s, stat penv path_ w = (Some s, w1)
                      /\ mtime st = Posix.ToTimePoint (st_mtim s)
                      /\ (type st = File -> size st = st_size s)))
    /\ (forall path_ w w1 st,
           Win32.StatFile wenv path_ w = (Ok st, w1) ->
           (type st <> File -> size st = kNoSize)
           /\ (type st = NonExistent -> mtime st = kNoTime)
           /\ (type st <> NonExistent ->
               exists h wa wb info,
                 CreateFileW wenv path_ w = (Some h, wa)
                 /\ GetFileInformationByHandle wenv h wa = (Some info, wb)
                 /\ mtime st = Win32.ToTimePoint (ftLastWriteTime info)
                 /\ (type st = File ->
                     size st = to_int64 (to_int64 (Z.shiftl (nFileSizeHigh info) 32)
                                         + nFileSizeLow info)))).
Proof.
  intros World N PF IS OS penv wenv. split.
  - intros path_ w w1 st H.
    destruct (Posix_StatFile_Ok penv _ _ _ _ H) as [(Hs & _ & ->)|(s & Hs & ->)].
    + simpl. repeat split; congruence.
    + rewrite StatToFileStat_cases. simpl.
      destruct (S_ISREG (st_mode s)); [|destruct (S_ISDIR (st_mode s))];
        (split; [congruence|]); (split; [congruence|]);
        intros _; exists s; repeat split; congruence.
  - intros path_ w w1 st H.
    destruct (Win32_StatFile_Ok wenv _ _ _ _ H)
      as [(Hs & _ & ->)|(h & wa & wb & info & H1 & H2 & -> & ->)].
    + simpl. repeat split; congruence.
    + rewrite FileInformationToFileStat_cases. simpl.
      destruct (Z.land _ _ =? 0);
        (split; [congruence|]); (split; [congruence|]);
        intros _; exists h, wa, wb, info; repeat split; congruence.
Qed.

(** C4, as the code has it. On POSIX a regular file gives [File] with the
    reported length, a directory gives [Directory] and anything else
    [Unknown], both with the no-value size. On Windows the directory
    attribute gives [Directory] with the no-value size and everything else
    is a [File] whose size is the two reported halves put together:
    [Unknown] is never answered there. [StatFile] keeps the type and the
    size of the conversion. *)
Theorem stat_type_mapping :
  (forall s : struct_stat,
      let st := Posix.StatToFileStat s in
      (S_ISREG (st_mode s) = true -> type st = File /\ size st = st_size s)
      /\ (S_ISDIR (st_mode s) = true ->
          type st = Directory /\ size st = kNoSize)
      /\ (S_ISREG (st_mode s) = false -> S_ISDIR (st_mode s) = false ->
          type st = Unknown /\ size st = kNoSize))
  /\ (forall info : BY_HANDLE_FILE_INFORMATION,
         let st := Win32.FileInformationToFileStat info in
         (Z.land (dwFileAttributes info) FILE_ATTRIBUTE_DIRECTORY <> 0 ->
          type st = Directory /\ size st = kNoSize)
         /\ (Z.land (dwFileAttributes info) FILE_ATTRIBUTE_DIRECTORY = 0 ->
             type st = File
             /\ size st = to_int64 (to_int64 (Z.shiftl (nFileSizeHigh info) 32)
                                    + nFileSizeLow info)
             /\ (0 <= nFileSizeHigh info < 2 ^ 31 ->
                 0 <= nFileSizeLow info < 2 ^ 32 ->
                 size st = nFileSizeHigh info * 2 ^ 32 + nFileSizeLow info))
         /\ type st <> Unknown)
  /\ (forall (World PF IS OS : Type) (penv : Env World string PF IS OS)
             path_ w w1 s,
         stat penv path_ w = (Some s, w1) ->
         exists st, Posix.StatFile penv path_ w = (Ok st, w1)
                    /\ type st = type (Posix.StatToFileStat s)
                    /\ size st = size (Posix.StatToFileStat s))
  /\ (forall (World N PF IS OS : Type) (wenv : Env World N PF IS OS)
             path_ w w1 w2 h info,
         CreateFileW wenv path_ w = (Some h, w1) ->
         GetFileInformationByHandle wenv h w1 = (Some info, w2) ->
         exists st, Win32.StatFile wenv path_ w = (Ok st, CloseHandle wenv h w2)
                    /\ type st = type (Win32.FileInformationToFileStat info)
                    /\ size st = size (Win32.FileInformationToFileStat info)).
Proof.
  split; [|split; [|split]].
  - intros s st. subst st. rewrite StatToFileStat_cases. simpl.
    split; [|split].
    + intros ->. auto.
    + intros Hd. destruct (S_ISREG (st_mode s)) eqn:Hr.
      * apply S_ISREG_not_dir in Hr. congruence.
      * rewrite Hd. auto.
    + intros -> ->. auto.
  - intros info st. subst st. rewrite FileInformationToFileStat_cases. simpl.
    destruct (Z.land _ _ =? 0) eqn:Hd.
    + apply Z.eqb_eq in Hd. split; [congruence|]. split; [|discriminate].
      intros _. split; [reflexivity|]. split; [reflexivity|].
      apply file_size_of_halves.
    + apply Z.eqb_neq in Hd. split; [auto|]. split; [congruence|discriminate].
  - intros World PF IS OS penv path_ w w1 s H.
    rewrite (Posix_StatFile_found penv _ _ _ _ H). eauto.
  - intros World N PF IS OS wenv path_ w w1 w2 h info H1 H2.
    rewrite (Win32_StatFile_found wenv _ _ _ _ _ _ H1 H2). eauto.
Qed.

Lemma is_missing_errno_true (e : Z) :
  is_missing_errno e = true <-> e = ENOENT \/ e = ENOTDIR \/ e = ELOOP.
Proof.
  unfold is_missing_errno.
  rewrite !orb_true_iff, !Z.eqb_eq. tauto.
Qed.

Lemma is_missing_error_true (e : Z) :
  is_missing_error e = true
  <-> e = ERROR_FILE_NOT_FOUND \/ e = ERROR_PATH_NOT_FOUND.
Proof.
  unfold is_missing_error.
  rewrite !orb_true_iff, !Z.eqb_eq. tauto.
Qed.

Lemma GetTargetStats_resolved
  {World N PF IS OS : Type} (env : Env World N PF IS OS)
  (StatFile : N -> M World FileStats) (p : string) (fn : PF) (w : World) :
  FromString env p = Ok fn ->
  LocalFileSystem.GetTargetStats env StatFile p w = StatFile (ToNative env fn) w.
Proof.
  intros H. unfold LocalFileSystem.GetTargetStats. rewrite H. reflexivity.
Qed.

(** C5. StatOne of a path that resolves and whose entity the native call
    reports missing (ENOENT, ENOTDIR or ELOOP on POSIX; file or path not
    found on Windows) succeeds with a [NonExistent] record, both sentinels
    and the portable form of the resolved path; any other failure of the
    native call is an IOError whose message holds that path and the native
    error text. *)
Theorem StatOne_missing_is_success :
  forall (World N PF IS OS : Type)
         (penv : Env World string PF IS OS) (wenv : Env World N PF IS OS),
    (forall p fn w w1,
        FromString penv p = Ok fn ->
        stat penv (ToNative penv fn) w = (None, w1) ->
        (errno penv w1 = ENOENT \/ errno penv w1 = ENOTDIR
         \/ errno penv w1 = ELOOP ->
         LocalFileSystem.GetTargetStats penv (Posix.StatFile penv) p w
         = (Ok (mkFileStats (ToNative penv fn) NonExistent kNoSize kNoTime), w1))
        /\ (~ (errno penv w1 = ENOENT \/ errno penv w1 = ENOTDIR
               \/ errno penv w1 = ELOOP) ->
            LocalFileSystem.GetTargetStats penv (Posix.StatFile penv) p w
            = (Err (mkStatus IOError
                      ("Failed stat()ing path '" ++ ToNative penv fn ++ "'"
                       ++ ErrnoMessage penv (errno penv w1))), w1)))
    /\ (forall p fn w w1,
           FromString wenv p = Ok fn ->
           CreateFileW wenv (ToNative wenv fn) w = (None, w1) ->
           (GetLastError wenv w1 = ERROR_FILE_NOT_FOUND
            \/ GetLastError wenv w1 = ERROR_PATH_NOT_FOUND ->
            LocalFileSystem.GetTargetStats wenv (Win32.StatFile wenv) p w
            = (Ok (mkFileStats (NativeToString wenv (ToNative wenv fn))
                               NonExistent kNoSize kNoTime), w1))
           /\ (~ (GetLastError wenv w1 = ERROR_FILE_NOT_FOUND
                  \/ GetLastError wenv w1 = ERROR_PATH_NOT_FOUND) ->
               LocalFileSystem.GetTargetStats wenv (Win32.StatFile wenv) p w
               = (Err (mkStatus IOError
                         ("Failed querying information for path '"
                          ++ NativeToString wenv (ToNative wenv fn) ++ "'"
                          ++ WinErrorMessage wenv (GetLastError wenv w1))), w1)))
    /\ (forall p fn w w1 w2 h,
           FromString wenv p = Ok fn ->
           CreateFileW wenv (ToNative wenv fn) w = (Some h, w1) ->
           GetFileInformationByHandle wenv h w1 = (None, w2) ->
           LocalFileSystem.GetTargetStats wenv (Win32.StatFile wenv) p w
           = (Err (mkStatus IOError
                     ("Failed querying information for path '"
                      ++ NativeToString wenv (ToNative wenv fn) ++ "'"
                      ++ WinErrorMessage wenv
                           (GetLastError wenv (CloseHandle wenv h w2)))),
              CloseHandle wenv h w2)).
Proof.
  intros World N PF IS OS penv wenv. split; [|split].
  - intros p fn w w1 Hfn Hstat.
    rewrite (GetTargetStats_resolved penv _ _ _ _ Hfn),
            (Posix_StatFile_failed penv _ _ _ Hstat).
    split; intros He.
    + apply is_missing_errno_true in He. now rewrite He.
    + destruct (is_missing_errno _) eqn:M; [|reflexivity].
      apply is_missing_errno_true in M. contradiction.
  - intros p fn w w1 Hfn Hopen.
    rewrite (GetTargetStats_resolved wenv _ _ _ _ Hfn),
            (Win32_StatFile_no_handle wenv _ _ _ Hopen).
    split; intros He.
    + apply is_missing_error_true in He. now rewrite He.
    + destruct (is_missing_error _) eqn:M; [|reflexivity].
      apply is_missing_error_true in M. contradiction.
  - intros p fn w w1 w2 h Hfn Hopen Hinfo.
    rewrite (GetTargetStats_resolved wenv _ _ _ _ Hfn).
    apply (Win32_StatFile_no_info wenv _ _ _ _ _ Hopen Hinfo).
Qed.

(** C10, as the code has it. The path of a record answered by [StatFile]
    is the portable form of the native path it was asked: on POSIX that
    string itself, on Windows its [NativeToString]. A successful StatOne of
    [p] therefore carries the portable form of the native path the Path
    Resolver gave for [p]; it is [p] when that form is [p]. *)
Theorem StatFile_path_is_portable_form :
  forall (World N PF IS OS : Type)
         (penv : Env World string PF IS OS) (wenv : Env World N PF IS OS),
    (forall path_ w w1 st,
        Posix.StatFile penv path_ w = (Ok st, w1) -> path st = path_)
    /\ (forall path_ w w1 st,
           Win32.StatFile wenv path_ w = (Ok st, w1) ->
           path st = NativeToString wenv path_)
    /\ (forall p w w1 st,
           LocalFileSystem.GetTargetStats penv (Posix.StatFile penv) p w
           = (Ok st, w1) ->
           exists fn, FromString penv p = Ok fn
                      /\ path st = ToNative penv fn
                      /\ (ToNative penv fn = p -> path st = p))
    /\ (forall p w w1 st,
           LocalFileSystem.GetTargetStats wenv (Win32.StatFile wenv) p w
           = (Ok st, w1) ->
           exists fn, FromString wenv p = Ok fn
                      /\ path st = ToString wenv (FromNative wenv (ToNative wenv fn))
                      /\ (ToString wenv (FromNative wenv (ToNative wenv fn)) = p ->
                          path st = p)).
Proof.
  intros World N PF IS OS penv wenv.
  assert (HP : forall path_ w w1 st,
             Posix.StatFile penv path_ w = (Ok st, w1) -> path st = path_).
  { intros path_ w w1 st H.
    destruct (Posix_StatFile_Ok penv _ _ _ _ H) as [(_ & _ & ->)|(s & _ & ->)];
      reflexivity. }
  assert (HW : forall path_ w w1 st,
             Win32.StatFile wenv path_ w = (Ok st, w1) ->
             path st = NativeToString wenv path_).
  { intros path_ w w1 st H.
    destruct (Win32_StatFile_Ok wenv _ _ _ _ H)
      as [(_ & _ & ->)|(h & wa & wb & info & _ & _ & _ & ->)]; reflexivity. }
  split; [exact HP|]. split; [exact HW|]. split.
  - intros p w w1 st H. unfold LocalFileSystem.GetTargetStats in H.
    destruct (FromString penv p) as [fn|e] eqn:Hfn.
    + cbv [bind lift] in H. exists fn. apply HP in H.
      split; [reflexivity|]. split; congruence.
    + discriminate.
  - intros p w w1 st H. unfold LocalFileSystem.GetTargetStats in H.
    destruct (FromString wenv p) as [fn|e] eqn:Hfn.
    + cbv [bind lift] in H. exists fn. apply HW in H.
      split; [reflexivity|]. unfold NativeToString in H. split; congruence.
    + discriminate.
Qed.

(** ** Claims on the Directory Selector *)

Section SelectorClaims.
Context {World N PF IS OS : Type} (env : Env World N PF IS OS).
Variable StatFile : N -> M World FileStats.

Lemma StatSelector_listing_failed_eq select dir_fn d out w status w1 :
  ListDir env dir_fn w = (Err status, w1) ->
  StatSelector env StatFile dir_fn select d out w
  = StatSelector_listing_failed env dir_fn select status out w1.
Proof. intros H. rewrite StatSelector_eq, H. reflexivity. Qed.

(** C6, as the code has it. When the listing of a directory fails: with
    [allow_non_existent] set and an IOError, existence is asked again (with
    [FileExists]); a directory that is gone gives success with nothing
    appended, one that is still there gives the listing failure, and a
    failure of the question itself is what is returned. With
    [allow_non_existent] unset or another kind of failure, the listing
    failure is returned as it is. *)
Theorem StatSelector_listing_failure :
  forall select dir_fn d out w status w1,
    ListDir env dir_fn w = (Err status, w1) ->
    (allow_non_existent select = true -> IsIOError status = true ->
     forall w2,
       (FileExists env dir_fn w1 = (Ok false, w2) ->
        StatSelector env StatFile dir_fn select d out w = (Ok tt, out, w2))
       /\ (FileExists env dir_fn w1 = (Ok true, w2) ->
           StatSelector env StatFile dir_fn select d out w
           = (Err status, out, w2))
       /\ (forall e, FileExists env dir_fn w1 = (Err e, w2) ->
           StatSelector env StatFile dir_fn select d out w = (Err e, out, w2)))
    /\ (allow_non_existent select = false \/ IsIOError status = false ->
        StatSelector env StatFile dir_fn select d out w = (Err status, out, w1)).
Proof.
  intros select dir_fn d out w status w1 H.
  rewrite (StatSelector_listing_failed_eq _ _ _ _ _ _ _ H).
  unfold StatSelector_listing_failed. split.
  - intros -> ->. simpl. intros w2. repeat split.
    + intros ->. reflexivity.
    + intros ->. reflexivity.
    + intros e ->. reflexivity.
  - intros [-> | ->]; [reflexivity|]. now rewrite andb_false_r.
Qed.

(** C3, as the code has it. A [base_dir] that is missing is dealt with
    inside [StatSelector], by its branch for a failed listing, at every
    depth; [GetTargetStats(Selector)] resolves [base_dir], calls
    [StatSelector] at depth 0 on an empty sequence and hands back what it
    answers, nothing more. So on a missing [base_dir] it gives the empty
    sequence under [allow_non_existent] and the listing failure without. *)
Theorem missing_base_dir_handled_in_StatSelector :
  forall select fn w,
    FromString env (base_dir select) = Ok fn ->
    LocalFileSystem.GetTargetStats_Selector env StatFile select w
    = match StatSelector env StatFile fn select 0 [] w with
      | (Ok _, results, w1) => (Ok results, w1)
      | (Err e, _, w1) => (Err e, w1)
      end
    /\ forall status w1 w2,
        ListDir env fn w = (Err status, w1) ->
        IsIOError status = true ->
        FileExists env fn w1 = (Ok false, w2) ->
        (forall d out,
            StatSelector env StatFile fn select d out w
            = if allow_non_existent select then (Ok tt, out, w2)
              else (Err status, out, w1))
        /\ LocalFileSystem.GetTargetStats_Selector env StatFile select w
           = if allow_non_existent select then (Ok [], w2)
             else (Err status, w1).
Proof.
  intros select fn w Hfn.
  assert (Hfacade :
            LocalFileSystem.GetTargetStats_Selector env StatFile select w
            = match StatSelector env StatFile fn select 0 [] w with
              | (Ok _, results, w1) => (Ok results, w1)
              | (Err e, _, w1) => (Err e, w1)
              end).
  { unfold LocalFileSystem.GetTargetStats_Selector. rewrite Hfn.
    cbv [bind lift].
    destruct (StatSelector env StatFile fn select 0 [] w) as [[[u|e] out] w1];
      reflexivity. }
  split; [exact Hfacade|].
  intros status w1 w2 Hlist Hio Hgone.
  assert (Hsel : forall d out,
             StatSelector env StatFile fn select d out w
             = if allow_non_existent select then (Ok tt, out, w2)
               else (Err status, out, w1)).
  { intros d out. rewrite (StatSelector_listing_failed_eq _ _ _ _ _ _ _ Hlist).
    unfold StatSelector_listing_failed. rewrite Hio, Hgone.
    destruct (allow_non_existent select); reflexivity. }
  split; [exact Hsel|].
  rewrite Hfacade, Hsel. destruct (allow_non_existent select); reflexivity.
Qed.

(** C7. [StatSelector] lists its directory and runs its loop on the
    listing; the loop ends with success on no entry, stops at the first
    entry [StatFile] fails on, and otherwise appends the record of the
    entry unless that is [NonExistent]. With [recursive] set, the entry
    just stated at depth [d] is descended into exactly when it is a
    directory and [d < max_recursion]: the loop then runs [StatSelector] on
    it at depth [d + 1] before it goes on with the next entry. With
    [recursive] unset, or from depth [max_recursion] on (so at depth 0 when
    [max_recursion] is 0), [StatSelector] is the listing of the direct
    children, whatever their types: no recursive call is made. *)
Theorem StatSelector_descent :
  forall select dir_fn d,
    (forall out w,
        StatSelector env StatFile dir_fn select d out w
        = match ListDir env dir_fn w with
          | (Err status, w1) =>
              StatSelector_listing_failed env dir_fn select status out w1
          | (Ok children, w1) =>
              StatSelector_loop env StatFile dir_fn select d children out w1
          end)
    /\ (forall out w,
           StatSelector_loop env StatFile dir_fn select d [] out w
           = (Ok tt, out, w))
    /\ (forall child rest out w e w1,
           StatFile (ToNative env (Join env dir_fn child)) w = (Err e, w1) ->
           StatSelector_loop env StatFile dir_fn select d (child :: rest) out w
           = (Err e, out, w1))
    /\ (recursive select = true ->
        forall st, descends select d st = true
                   <-> type st = Directory /\ d < max_recursion select)
    /\ (forall child rest out w st w1,
           StatFile (ToNative env (Join env dir_fn child)) w = (Ok st, w1) ->
           let out1 := if negb (FileType_eqb (type st) NonExistent)
                       then out ++ [st] else out in
           StatSelector_loop env StatFile dir_fn select d (child :: rest) out w
           = if descends select d st then
               match StatSelector env StatFile (Join env dir_fn child) select
                                  (d + 1) out1 w1 with
               | (Err e, out2, w2) => (Err e, out2, w2)
               | (Ok _, out2, w2) =>
                   StatSelector_loop env StatFile dir_fn select d rest out2 w2
               end
             else StatSelector_loop env StatFile dir_fn select d rest out1 w1)
    /\ (recursive select = false \/ max_recursion select <= d ->
        (forall st, descends select d st = false)
        /\ forall out w,
            StatSelector env StatFile dir_fn select d out w
            = list_direct_children env StatFile dir_fn select out w).
Proof.
  intros select dir_fn d.
  split; [|split; [|split; [|split; [|split]]]].
  - intros out w. apply StatSelector_eq.
  - intros out w. apply StatSelector_loop_nil.
  - intros child rest out w e w1 Hst.
    rewrite StatSelector_loop_cons. simpl. rewrite Hst. reflexivity.
  - intros Hrec st. unfold descends. rewrite Hrec, andb_true_r.
    rewrite andb_true_iff, Z.ltb_lt, FileType_eqb_eq. tauto.
  - intros child rest out w st w1 Hst out1.
    rewrite StatSelector_loop_cons. simpl. rewrite Hst. reflexivity.
  - intros Hno.
    assert (Hd : forall st, descends select d st = false).
    { intros st. unfold descends. destruct Hno as [-> | Hle].
      - now rewrite andb_false_r.
      - apply Z.ltb_ge in Hle. now rewrite Hle. }
    split; [exact Hd|]. intros out w.
    rewrite StatSelector_eq. unfold list_direct_children.
    destruct (ListDir env dir_fn w) as [[children|status] w1];
      [|reflexivity].
    now apply StatSelector_loop_flat.
Qed.

End SelectorClaims.

(** ** Claims on the Filesystem Facade *)

Section FacadeClaims.
Context {World N PF IS OS : Type} (env : Env World N PF IS OS).
Variable platform : Platform.
Variable StatFile : N -> M World FileStats.
Variable options_ : LocalFileSystemOptions.

Lemma OpenInputStreamGeneric_unresolved p e options w :
  FromString env p = Err e ->
  LocalFileSystem.OpenInputStreamGeneric env p options w = (Err e, w).
Proof.
  intros H. unfold LocalFileSystem.OpenInputStreamGeneric.
  destruct (use_mmap options);
    cbv [bind lift MemoryMappedFile_Open ReadableFile_Open];
    rewrite H; reflexivity.
Qed.

Lemma OpenOutputStreamGeneric_unresolved p e truncate append w :
  FromString env p = Err e ->
  LocalFileSystem.OpenOutputStreamGeneric env p truncate append w = (Err e, w).
Proof.
  intros H. unfold LocalFileSystem.OpenOutputStreamGeneric.
  cbv [bind lift]. rewrite H. reflexivity.
Qed.

(** C1. Every operation of the facade resolves its path with
    [PlatformFilename::FromString] before anything else: when that fails,
    the operation answers that very failure and the world is as it was. For
    the two-path operations this holds for the source, and for the
    destination once the source has resolved. [OpenInputStream] and
    [OpenInputFile] hand the string to the stream class, whose resolution
    of it is the one modelled in [ReadableFile_Open] and
    [MemoryMappedFile_Open]. *)
Theorem facade_resolves_first :
  forall (p q : string) (e : Status) (w : World),
    FromString env p = Err e ->
    LocalFileSystem.GetTargetStats env StatFile p w = (Err e, w)
    /\ (forall allow rec depth,
           LocalFileSystem.GetTargetStats_Selector env StatFile
             (mkSelector p allow rec depth) w = (Err e, w))
    /\ (forall rec, LocalFileSystem.CreateDir env p rec w = (Err e, w))
    /\ LocalFileSystem.DeleteDir env p w = (Err e, w)
    /\ LocalFileSystem.DeleteDirContents env p w = (Err e, w)
    /\ LocalFileSystem.DeleteFile env p w = (Err e, w)
    /\ LocalFileSystem.Move env platform p q w = (Err e, w)
    /\ (forall fn, FromString env q = Ok fn ->
                   LocalFileSystem.Move env platform q p w = (Err e, w))
    /\ LocalFileSystem.CopyFile env platform options_ p q w = (Err e, w)
    /\ (forall fn, FromString env q = Ok fn ->
                   LocalFileSystem.CopyFile env platform options_ q p w
                   = (Err e, w))
    /\ LocalFileSystem.OpenInputStream env options_ p w = (Err e, w)
    /\ LocalFileSystem.OpenInputFile env options_ p w = (Err e, w)
    /\ LocalFileSystem.OpenOutputStream env p w = (Err e, w)
    /\ LocalFileSystem.OpenAppendStream env p w = (Err e, w).
Proof.
  intros p q e w H.
  repeat match goal with |- _ /\ _ => split end.
  - unfold LocalFileSystem.GetTargetStats. rewrite H. reflexivity.
  - intros allow rec depth. unfold LocalFileSystem.GetTargetStats_Selector.
    simpl. rewrite H. reflexivity.
  - intros rec. unfold LocalFileSystem.CreateDir. rewrite H. reflexivity.
  - unfold LocalFileSystem.DeleteDir. rewrite H. reflexivity.
  - unfold LocalFileSystem.DeleteDirContents. rewrite H. reflexivity.
  - unfold LocalFileSystem.DeleteFile. rewrite H. reflexivity.
  - unfold LocalFileSystem.Move. rewrite H. reflexivity.
  - intros fn Hq. unfold LocalFileSystem.Move. rewrite Hq, H. reflexivity.
  - unfold LocalFileSystem.CopyFile. rewrite H. reflexivity.
  - intros fn Hq. unfold LocalFileSystem.CopyFile. rewrite Hq, H. reflexivity.
  - now apply OpenInputStreamGeneric_unresolved.
  - now apply OpenInputStreamGeneric_unresolved.
  - now apply OpenOutputStreamGeneric_unresolved.
  - now apply OpenOutputStreamGeneric_unresolved.
Qed.

(** C9. When source and destination resolve to the same native path,
    [CopyFile] succeeds and the world is as it was: no stream is opened,
    nothing is read or written. So does [CopyFile(p, p)] for every path
    that resolves. *)
Theorem CopyFile_same_native_path :
  (forall src dest sfn dfn w,
      FromString env src = Ok sfn ->
      FromString env dest = Ok dfn ->
      ToNative env sfn = ToNative env dfn ->
      LocalFileSystem.CopyFile env platform options_ src dest w = (Ok tt, w))
  /\ (forall p fn w,
         FromString env p = Ok fn ->
         LocalFileSystem.CopyFile env platform options_ p p w = (Ok tt, w)).
Proof.
  assert (Hsame : forall src dest sfn dfn w,
             FromString env src = Ok sfn ->
             FromString env dest = Ok dfn ->
             ToNative env sfn = ToNative env dfn ->
             LocalFileSystem.CopyFile env platform options_ src dest w
             = (Ok tt, w)).
  { intros src dest sfn dfn w Hs Hd Heq. unfold LocalFileSystem.CopyFile.
    rewrite Hs, Hd. cbv [bind lift].
    destruct (native_eq_dec env (ToNative env sfn) (ToNative env dfn));
      [reflexivity | contradiction]. }
  split; [exact Hsame|].
  intros p fn w Hp. now apply (Hsame p p fn fn).
Qed.

(** What the three deletions answer once the path has resolved and the
    primitive has succeeded. *)
Lemma delete_outcomes :
  forall (p : string) (fn : PF) (w w1 : World),
    FromString env p = Ok fn ->
    (DeleteDirTree env fn w = (Ok false, w1) ->
     LocalFileSystem.DeleteDir env p w
     = (Err (mkStatus IOError ("Directory does not exist: '" ++ p ++ "'")), w1))
    /\ (DeleteDirTree env fn w = (Ok true, w1) ->
        LocalFileSystem.DeleteDir env p w = (Ok tt, w1))
    /\ (DeleteDirContents env fn w = (Ok false, w1) ->
        LocalFileSystem.DeleteDirContents env p w
        = (Err (mkStatus IOError ("Directory does not exist: '" ++ p ++ "'")),
           w1))
    /\ (DeleteDirContents env fn w = (Ok true, w1) ->
        LocalFileSystem.DeleteDirContents env p w = (Ok tt, w1))
    /\ (DeleteFile env fn w = (Ok false, w1) ->
        LocalFileSystem.DeleteFile env p w
        = (Err (mkStatus IOError ("File does not exist: '" ++ p ++ "'")), w1))
    /\ (DeleteFile env fn w = (Ok true, w1) ->
        LocalFileSystem.DeleteFile env p w = (Ok tt, w1)).
Proof.
  intros p fn w w1 H.
  repeat match goal with |- _ /\ _ => split end; intros Hd.
  - unfold LocalFileSystem.DeleteDir. rewrite H. cbv [bind lift].
    rewrite Hd. reflexivity.
  - unfold LocalFileSystem.DeleteDir. rewrite H. cbv [bind lift].
    rewrite Hd. reflexivity.
  - unfold LocalFileSystem.DeleteDirContents. rewrite H. cbv [bind lift].
    rewrite Hd. reflexivity.
  - unfold LocalFileSystem.DeleteDirContents. rewrite H. cbv [bind lift].
    rewrite Hd. reflexivity.
  - unfold LocalFileSystem.DeleteFile. rewrite H. cbv [bind lift].
    rewrite Hd. reflexivity.
  - unfold LocalFileSystem.DeleteFile. rewrite H. cbv [bind lift].
    rewrite Hd. reflexivity.
Qed.

End FacadeClaims.

(** C8. Once the path has resolved: when the delete primitive reports that
    nothing was there, [DeleteDir] and [DeleteDirContents] fail with the
    IOError "Directory does not exist: '<path>'" and [DeleteFile] with
    "File does not exist: '<path>'"; when it reports a deletion, each of the
    three succeeds. StatOne of a missing entity, on the contrary, succeeds
    with a [NonExistent] record, on POSIX and on Windows. *)
Theorem delete_reports_absence :
  forall (World N PF IS OS : Type)
         (env : Env World N PF IS OS) (penv : Env World string PF IS OS),
    (forall p fn w w1,
        FromString env p = Ok fn ->
        (DeleteDirTree env fn w = (Ok false, w1) ->
         LocalFileSystem.DeleteDir env p w
         = (Err (mkStatus IOError ("Directory does not exist: '" ++ p ++ "'")),
            w1))
        /\ (DeleteDirTree env fn w = (Ok true, w1) ->
            LocalFileSystem.DeleteDir env p w = (Ok tt, w1))
        /\ (DeleteDirContents env fn w = (Ok false, w1) ->
            LocalFileSystem.DeleteDirContents env p w
            = (Err (mkStatus IOError ("Directory does not exist: '" ++ p ++ "'")),
               w1))
        /\ (DeleteDirContents env fn w = (Ok true, w1) ->
            LocalFileSystem.DeleteDirContents env p w = (Ok tt, w1))
        /\ (DeleteFile env fn w = (Ok false, w1) ->
            LocalFileSystem.DeleteFile env p w
            = (Err (mkStatus IOError ("File does not exist: '" ++ p ++ "'")),
               w1))
        /\ (DeleteFile env fn w = (Ok true, w1) ->
            LocalFileSystem.DeleteFile env p w = (Ok tt, w1)))
    /\ (forall p fn w w1,
           FromString penv p = Ok fn ->
           stat penv (ToNative penv fn) w = (None, w1) ->
           errno penv w1 = ENOENT ->
           exists st,
             LocalFileSystem.GetTargetStats penv (Posix.StatFile penv) p w
             = (Ok st, w1) /\ type st = NonExistent)
    /\ (forall p fn w w1,
           FromString env p = Ok fn ->
           CreateFileW env (ToNative env fn) w = (None, w1) ->
           GetLastError env w1 = ERROR_FILE_NOT_FOUND ->
           exists st,
             LocalFileSystem.GetTargetStats env (Win32.StatFile env) p w
             = (Ok st, w1) /\ type st = NonExistent).
Proof.
  intros World N PF IS OS env penv. split; [|split].
  - intros p fn w w1 H. now apply delete_outcomes.
  - intros p fn w w1 Hfn Hstat He.
    rewrite (GetTargetStats_resolved penv _ _ _ _ Hfn),
            (Posix_StatFile_failed penv _ _ _ Hstat), He.
    eexists. split; reflexivity.
  - intros p fn w w1 Hfn Hopen He.
    rewrite (GetTargetStats_resolved env _ _ _ _ Hfn),
            (Win32_StatFile_no_handle env _ _ _ Hopen), He.
    eexists. split; reflexivity.
Qed.

(** ** The claims on the concrete world *)

Local Open Scope string_scope.

(** The scenario of the spec: three records with one level of descent, the
    two direct children with none. *)
Example scenario_depth_1 :
  fst (LocalFileSystem.GetTargetStats_Selector Demo.env Demo.posix_stat
         (Demo.select_t false true 1) Demo.w0)
  = Ok [mkFileStats "/tmp/t/a" File 10 1600000000000000000;
        mkFileStats "/tmp/t/b" Directory kNoSize 1600000000000000000;
        mkFileStats "/tmp/t/b/c" File 5 1600000000000000000].
Proof. vm_compute. reflexivity. Qed.

Example scenario_depth_0 :
  fst (LocalFileSystem.GetTargetStats_Selector Demo.env Demo.posix_stat
         (Demo.select_t false true 0) Demo.w0)
  = Ok [mkFileStats "/tmp/t/a" File 10 1600000000000000000;
        mkFileStats "/tmp/t/b" Directory kNoSize 1600000000000000000].
Proof. vm_compute. reflexivity. Qed.

(** C1 on the path with a NUL character: refused by the resolver, and by
    every operation with it, the journal of native calls staying empty. *)
Lemma facade_resolves_first_witness :
  exists e,
    FromString Demo.env Demo.bad_path = Err e
    /\ LocalFileSystem.GetTargetStats Demo.env Demo.posix_stat Demo.bad_path
         Demo.w0 = (Err e, Demo.w0)
    /\ LocalFileSystem.DeleteFile Demo.env Demo.bad_path Demo.w0
       = (Err e, Demo.w0)
    /\ LocalFileSystem.Move Demo.env POSIX "/tmp/t/a" Demo.bad_path Demo.w0
       = (Err e, Demo.w0)
    /\ LocalFileSystem.OpenInputStream Demo.env (mkOptions false) Demo.bad_path
         Demo.w0 = (Err e, Demo.w0)
    /\ LocalFileSystem.OpenAppendStream Demo.env Demo.bad_path Demo.w0
       = (Err e, Demo.w0).
Proof.
  eexists. split; [reflexivity|].
  destruct (facade_resolves_first Demo.env POSIX Demo.posix_stat
              (mkOptions false) Demo.bad_path "/tmp/t/a" _ Demo.w0 eq_refl)
    as (H1 & _ & _ & _ & _ & H6 & _ & H8 & _ & _ & H11 & _ & _ & H14).
  exact (conj H1 (conj H6 (conj (H8 _ eq_refl) (conj H11 H14)))).
Defined.

(** C2 on the socket: an [Unknown] record, with the no-value size and the
    modification time of the socket. *)
Lemma StatFile_sentinels_witness :
  exists st w1,
    Posix.StatFile Demo.env "/tmp/sock" Demo.w0 = (Ok st, w1)
    /\ size st = kNoSize
    /\ exists s, stat Demo.env "/tmp/sock" Demo.w0 = (Some s, w1)
                 /\ mtime st = Posix.ToTimePoint (st_mtim s).
Proof.
  eexists. eexists. split; [vm_compute; reflexivity|].
  destruct (proj1 (StatFile_sentinels _ _ _ _ _ Demo.env Demo.env)
              "/tmp/sock" Demo.w0 _ _ eq_refl) as (Hsize & _ & Htime).
  split; [apply Hsize; discriminate|].
  destruct Htime as (s & Hs & Hm & _); [discriminate|].
  exists s. split; [exact Hs | exact Hm].
Defined.

(** C2 fails on the socket: its record has type [Unknown] and a time that
    is not the sentinel, so a meaningful time does not imply [File] or
    [Directory]. *)
Lemma Unknown_record_has_mtime :
  exists st w1,
    Posix.StatFile Demo.env "/tmp/sock" Demo.w0 = (Ok st, w1)
    /\ type st = Unknown
    /\ mtime st = 1600000000000000000
    /\ ~ (mtime st <> kNoTime <-> type st = File \/ type st = Directory).
Proof.
  eexists. eexists. split; [vm_compute; reflexivity|]. simpl.
  split; [reflexivity|]. split; [reflexivity|].
  intros [H _]. destruct H as [H | H]; discriminate.
Qed.

(** C4 on the socket and on a directory of Windows. *)
Lemma stat_type_mapping_witness :
  (type (Posix.StatToFileStat Demo.socket_stat) = Unknown
   /\ size (Posix.StatToFileStat Demo.socket_stat) = kNoSize)
  /\ (type (Win32.FileInformationToFileStat
              (mkInfo FILE_ATTRIBUTE_DIRECTORY (mkFiletime 0 0) 0 0)) = Directory
      /\ size (Win32.FileInformationToFileStat
                 (mkInfo FILE_ATTRIBUTE_DIRECTORY (mkFiletime 0 0) 0 0)) = kNoSize).
Proof.
  split.
  - apply (proj1 stat_type_mapping Demo.socket_stat); reflexivity.
  - apply (proj1 (proj2 stat_type_mapping)
             (mkInfo FILE_ATTRIBUTE_DIRECTORY (mkFiletime 0 0) 0 0)).
    discriminate.
Defined.

(** C4 fails on Windows: an entity with the device attribute and without
    the directory attribute comes out as a [File] of 0 bytes, neither
    [Unknown] nor without a size. *)
Lemma Windows_device_is_File :
  Z.land (dwFileAttributes Demo.device_info) FILE_ATTRIBUTE_DIRECTORY = 0
  /\ Z.land (dwFileAttributes Demo.device_info) FILE_ATTRIBUTE_DEVICE <> 0
  /\ type (Win32.FileInformationToFileStat Demo.device_info) = File
  /\ size (Win32.FileInformationToFileStat Demo.device_info) = 0
  /\ type (Win32.FileInformationToFileStat Demo.device_info) <> Unknown
  /\ size (Win32.FileInformationToFileStat Demo.device_info) <> kNoSize
  /\ exists st w1,
      Win32.StatFile Demo.env "/tmp/sock" Demo.w0 = (Ok st, w1)
      /\ type st = File /\ size st = 0.
Proof.
  repeat split; try reflexivity; try discriminate.
  eexists. eexists. split; [vm_compute; reflexivity|]. split; reflexivity.
Qed.

(** C5 on a missing path and on one that may not be looked at. *)
Lemma StatOne_missing_is_success_witness :
  (exists w1,
      LocalFileSystem.GetTargetStats Demo.env Demo.posix_stat "/tmp/nothing"
        Demo.w0
      = (Ok (mkFileStats "/tmp/nothing" NonExistent kNoSize kNoTime), w1))
  /\ (exists w1,
         LocalFileSystem.GetTargetStats Demo.env Demo.posix_stat "/root/x"
           Demo.w0
         = (Err (mkStatus IOError
                   "Failed stat()ing path '/root/x'Permission denied"), w1)).
Proof.
  pose proof (proj1 (StatOne_missing_is_success _ _ _ _ _ Demo.env Demo.env))
    as H.
  split.
  - eexists.
    apply (proj1 (H "/tmp/nothing" "/tmp/nothing" Demo.w0 _ eq_refl eq_refl)).
    left. reflexivity.
  - eexists.
    apply (proj2 (H "/root/x" "/root/x" Demo.w0 _ eq_refl eq_refl)).
    intros [E | [E | E]]; discriminate E.
Defined.

(** C10 on the file [a]: the record carries the path the resolver gave. *)
Lemma StatFile_path_is_portable_form_witness :
  exists fn,
    FromString Demo.env "/tmp/t/a" = Ok fn
    /\ path (mkFileStats "/tmp/t/a" File 10 1600000000000000000)
       = ToNative Demo.env fn.
Proof.
  destruct (proj1 (proj2 (proj2
              (StatFile_path_is_portable_form _ _ _ _ _ Demo.env Demo.env)))
              "/tmp/t/a" Demo.w0 _ _ eq_refl) as (fn & Hfn & Hpath & _).
  exists fn. split; [exact Hfn | exact Hpath].
Defined.

(** C10 fails on Windows for a path written with a backslash: StatOne
    succeeds and the record carries the path in its generic spelling, which
    is not the path that was asked. *)
Lemma StatOne_path_differs_from_input :
  exists st w1,
    LocalFileSystem.GetTargetStats Demo.env Demo.win32_stat "C:\nothing"
      Demo.w0 = (Ok st, w1)
    /\ path st = "C:/nothing"
    /\ path st <> "C:\nothing".
Proof.
  eexists. eexists. split; [vm_compute; reflexivity|].
  split; [reflexivity | discriminate].
Qed.

(** C3 on the missing directory [/tmp/missing]: the empty sequence under
    [allow_non_existent]. *)
Lemma missing_base_dir_handled_in_StatSelector_witness :
  exists w2,
    LocalFileSystem.GetTargetStats_Selector Demo.env Demo.posix_stat
      (mkSelector "/tmp/missing" true true 3) Demo.w0 = (Ok [], w2).
Proof.
  eexists.
  refine (proj2 (proj2 (missing_base_dir_handled_in_StatSelector
                          Demo.env Demo.posix_stat
                          (mkSelector "/tmp/missing" true true 3)
                          "/tmp/missing" Demo.w0 eq_refl)
                   _ _ _ eq_refl eq_refl eq_refl)).
Defined.

(** C3 fails: the recursive routine itself, called on the missing
    directory, answers success with nothing appended, although its listing
    failed; the case is dealt with inside it. *)
Lemma StatSelector_tolerates_missing_dir :
  exists status w1 w2,
    ListDir Demo.env "/tmp/missing" Demo.w0 = (Err status, w1)
    /\ StatSelector Demo.env Demo.posix_stat "/tmp/missing"
         (mkSelector "/tmp/missing" true true 3) 0 [] Demo.w0
       = (Ok tt, [], w2)
    /\ StatSelector Demo.env Demo.posix_stat "/tmp/missing"
         (mkSelector "/tmp/missing" true true 3) 2 [] Demo.w0
       = (Ok tt, [], w2).
Proof.
  eexists. eexists. eexists. split; [vm_compute; reflexivity|].
  split; vm_compute; reflexivity.
Qed.

(** C6 on the missing directory: gone, so success; and without
    [allow_non_existent] the listing failure. *)
Lemma StatSelector_listing_failure_witness :
  exists status w1 w2,
    ListDir Demo.env "/tmp/missing" Demo.w0 = (Err status, w1)
    /\ StatSelector Demo.env Demo.posix_stat "/tmp/missing"
         (mkSelector "/tmp/missing" true true 3) 0 [] Demo.w0
       = (Ok tt, [], w2)
    /\ StatSelector Demo.env Demo.posix_stat "/tmp/missing"
         (mkSelector "/tmp/missing" false true 3) 0 [] Demo.w0
       = (Err status, [], w1).
Proof.
  eexists. eexists. eexists. split; [vm_compute; reflexivity|].
  split.
  - refine (proj1 (proj1 (StatSelector_listing_failure
                            Demo.env Demo.posix_stat
                            (mkSelector "/tmp/missing" true true 3)
                            "/tmp/missing" 0 [] Demo.w0 _ _ eq_refl)
                     eq_refl eq_refl _) eq_refl).
  - refine (proj2 (StatSelector_listing_failure
                     Demo.env Demo.posix_stat
                     (mkSelector "/tmp/missing" false true 3)
                     "/tmp/missing" 0 [] Demo.w0 _ _ eq_refl)
              (or_introl eq_refl)).
Defined.

(** C6 fails on [/root/x]: the listing fails with an IOError,
    [allow_non_existent] is set, the question whether the directory exists
    fails too, and what comes back is that second failure, not the listing
    failure. *)
Lemma StatSelector_returns_FileExists_failure :
  exists status w1 e w2,
    ListDir Demo.env "/root/x" Demo.w0 = (Err status, w1)
    /\ IsIOError status = true
    /\ FileExists Demo.env "/root/x" w1 = (Err e, w2)
    /\ StatSelector Demo.env Demo.posix_stat "/root/x"
         (mkSelector "/root/x" true false 0) 0 [] Demo.w0
       = (Err e, [], w2)
    /\ e <> status.
Proof.
  eexists. eexists. eexists. eexists. split; [vm_compute; reflexivity|].
  split; [reflexivity|]. split; [vm_compute; reflexivity|].
  split; [vm_compute; reflexivity | discriminate].
Qed.

(** C7 on [/tmp/t]: with [max_recursion = 0] the two direct children, the
    directory [b] among them, and nothing below it; with
    [max_recursion = 1] the file [c] of [b] too, right after [b]. *)
Lemma StatSelector_descent_witness :
  fst (StatSelector Demo.env Demo.posix_stat "/tmp/t"
         (Demo.select_t false true 0) 0 [] Demo.w0)
  = (Ok tt,
     [mkFileStats "/tmp/t/a" File 10 1600000000000000000;
      mkFileStats "/tmp/t/b" Directory kNoSize 1600000000000000000])
  /\ fst (StatSelector Demo.env Demo.posix_stat "/tmp/t"
            (Demo.select_t false true 1) 0 [] Demo.w0)
     = (Ok tt,
        [mkFileStats "/tmp/t/a" File 10 1600000000000000000;
         mkFileStats "/tmp/t/b" Directory kNoSize 1600000000000000000;
         mkFileStats "/tmp/t/b/c" File 5 1600000000000000000]).
Proof.
  split.
  - rewrite (proj2 (proj2 (proj2 (proj2 (proj2 (proj2
               (StatSelector_descent Demo.env Demo.posix_stat
                  (Demo.select_t false true 0) "/tmp/t" 0)))))
               (or_intror (Z.le_refl 0)))).
    vm_compute. reflexivity.
  - rewrite (proj1 (StatSelector_descent Demo.env Demo.posix_stat
                      (Demo.select_t false true 1) "/tmp/t" 0)).
    vm_compute. reflexivity.
Defined.

(** C8 on a missing file and on the file [a]. *)
Lemma delete_reports_absence_witness :
  (exists w1,
      LocalFileSystem.DeleteFile Demo.env "/tmp/nothing" Demo.w0
      = (Err (mkStatus IOError "File does not exist: '/tmp/nothing'"), w1))
  /\ (exists w1,
         LocalFileSystem.DeleteFile Demo.env "/tmp/t/a" Demo.w0 = (Ok tt, w1)).
Proof.
  pose proof (proj1 (delete_reports_absence _ _ _ _ _ Demo.env Demo.env)) as H.
  split; eexists.
  - refine (proj1 (proj2 (proj2 (proj2 (proj2
              (H "/tmp/nothing" "/tmp/nothing" Demo.w0 _ eq_refl))))) eq_refl).
  - refine (proj2 (proj2 (proj2 (proj2 (proj2
              (H "/tmp/t/a" "/tmp/t/a" Demo.w0 _ eq_refl))))) eq_refl).
Defined.

(** C9 on the file [a]: copied onto itself, the journal stays empty. *)
Lemma CopyFile_same_native_path_witness :
  LocalFileSystem.CopyFile Demo.env POSIX (mkOptions false)
    "/tmp/t/a" "/tmp/t/a" Demo.w0 = (Ok tt, Demo.w0)
  /\ LocalFileSystem.CopyFile Demo.env Windows (mkOptions true)
       "/tmp/t/a" "/tmp/t/a" Demo.w0 = (Ok tt, Demo.w0).
Proof.
  split.
  - exact (proj2 (CopyFile_same_native_path Demo.env POSIX (mkOptions false))
             "/tmp/t/a" "/tmp/t/a" Demo.w0 eq_refl).
  - exact (proj1 (CopyFile_same_native_path Demo.env Windows (mkOptions true))
             "/tmp/t/a" "/tmp/t/a" "/tmp/t/a" "/tmp/t/a" Demo.w0
             eq_refl eq_refl eq_refl).
Defined.

(** * Further properties *)

Local Close Scope string_scope.

(** ** The selector and its accumulator *)

Section SelectorExtras.
Context {World N PF IS OS : Type} (env : Env World N PF IS OS).
Variable StatFile : N -> M World FileStats.
Variable select : Selector.

Local Notation "'children_loop'" := (StatSelector_children env StatFile).
Local Notation "'with_fuel'" := (StatSelector_fuel env StatFile).

Lemma descends_true (d : Z) (st : FileStats) :
  descends select d st = true ->
  d < max_recursion select /\ recursive select = true /\ type st = Directory.
Proof.
  unfold descends. intros H.
  apply andb_prop in H as [H H3]. apply andb_prop in H as [H1 H2].
  apply Z.ltb_lt in H1. apply FileType_eqb_eq in H3. auto.
Qed.

Lemma StatSelector_children_framed self dir_fn d children :
  (forall full, framed (self full)) ->
  framed (children_loop self dir_fn select d children).
Proof.
  intros Hself. induction children as [|child rest IH]; intros out w; simpl.
  - now rewrite app_nil_r.
  - destruct (StatFile _ w) as [[st|e] w1]; [|now rewrite app_nil_r].
    set (pushed := if negb (FileType_eqb (type st) NonExistent)
                   then [st] else []).
    assert (Hout : (if negb (FileType_eqb (type st) NonExistent)
                    then out ++ [st] else out) = out ++ pushed).
    { unfold pushed. destruct (negb _); [reflexivity|now rewrite app_nil_r]. }
    rewrite Hout. fold pushed.
    destruct (descends select d st).
    + rewrite (Hself _ (out ++ pushed) w1), (Hself _ pushed w1).
      destruct (self _ [] w1) as [[[[u|e] new] w2]|]; [| |reflexivity].
      * rewrite (IH ((out ++ pushed) ++ new) w2), (IH (pushed ++ new) w2).
        destruct (children_loop self dir_fn select d rest [] w2)
          as [[[r m] w3]|]; [|reflexivity].
        now rewrite <- !app_assoc.
      * now rewrite <- app_assoc.
    + rewrite (IH (out ++ pushed) w1), (IH pushed w1).
      destruct (children_loop self dir_fn select d rest [] w1)
        as [[[r m] w3]|]; [|reflexivity].
      now rewrite app_assoc.
Qed.

Lemma StatSelector_listing_failed_framed dir_fn status out w :
  StatSelector_listing_failed env dir_fn select status out w
  = let '(r, new, w') :=
      StatSelector_listing_failed env dir_fn select status [] w in
    (r, out ++ new, w').
Proof.
  unfold StatSelector_listing_failed.
  destruct (allow_non_existent select && IsIOError status).
  - destruct (FileExists env dir_fn w) as [[[|]|e] w1]; simpl;
      now rewrite app_nil_r.
  - now rewrite app_nil_r.
Qed.

Lemma StatSelector_fuel_framed (fuel : nat) :
  forall dir_fn d, framed (with_fuel fuel dir_fn select d).
Proof.
  induction fuel as [|fuel IH]; intros dir_fn d out w; simpl.
  - reflexivity.
  - destruct (ListDir env dir_fn w) as [[children|status] w1].
    + apply StatSelector_children_framed. intros full. apply IH.
    + rewrite StatSelector_listing_failed_framed.
      destruct (StatSelector_listing_failed env dir_fn select status [] w1)
        as [[r new] w2]. reflexivity.
Qed.

Lemma StatSelector_framed dir_fn d out w :
  StatSelector env StatFile dir_fn select d out w
  = let '(r, new, w') := StatSelector env StatFile dir_fn select d [] w in
    (r, out ++ new, w').
Proof.
  pose proof (StatSelector_fuel_framed (StatSelector_depth select d)
                dir_fn d out w) as H.
  rewrite !StatSelector_fuel_enough in H by apply Nat.le_refl.
  destruct (StatSelector env StatFile dir_fn select d [] w) as [[r new] w'].
  congruence.
Qed.

Lemma StatSelector_loop_framed dir_fn d children out w :
  StatSelector_loop env StatFile dir_fn select d children out w
  = let '(r, new, w') :=
      StatSelector_loop env StatFile dir_fn select d children [] w in
    (r, out ++ new, w').
Proof.
  pose proof (StatSelector_children_framed
                (fun full out' w' =>
                   Some (StatSelector env StatFile full select (d + 1) out' w'))
                dir_fn d children) as H.
  assert (Hself : forall full,
             framed (fun out' w' =>
                       Some (StatSelector env StatFile full select (d + 1)
                                          out' w'))).
  { intros full out' w'. rewrite StatSelector_framed.
    destruct (StatSelector env StatFile full select (d + 1) [] w')
      as [[r new] w2]. reflexivity. }
  specialize (H Hself out w). rewrite !StatSelector_loop_Some in H.
  destruct (StatSelector_loop env StatFile dir_fn select d children [] w)
    as [[r new] w']. congruence.
Qed.

End SelectorExtras.

Section SelectorEntries.
Context {World N PF IS OS : Type} (env : Env World N PF IS OS).
Variable StatFile : N -> M World FileStats.
Variable select : Selector.

Local Notation "'children_loop'" := (StatSelector_children env StatFile).
Local Notation "'with_fuel'" := (StatSelector_fuel env StatFile).

(** A property [P dir d] of records that holds of every existing child of
    [dir] as [StatFile] answers it, and that goes from a directory entered
    at depth [d + 1] to its parent, holds of everything a call on [dir] at
    depth [d] appends. *)
Section Entries.
Variable P : PF -> Z -> FileStats -> Prop.
Hypothesis P_child :
  forall dir d child w st w1,
    StatFile (ToNative env (Join env dir child)) w = (Ok st, w1) ->
    type st <> NonExistent -> P dir d st.
Hypothesis P_parent :
  forall dir d child st,
    d < max_recursion select -> recursive select = true ->
    P (Join env dir child) (d + 1) st -> P dir d st.

Lemma StatSelector_children_entries self dir_fn d children :
  (forall child out w r out' w',
      d < max_recursion select -> recursive select = true ->
      self (Join env dir_fn child) out w = Some (r, out', w') ->
      exists new, out' = out ++ new /\ Forall (P dir_fn d) new) ->
  forall out w r out' w',
    children_loop self dir_fn select d children out w = Some (r, out', w') ->
    exists new, out' = out ++ new /\ Forall (P dir_fn d) new.
Proof.
  intros Hself. induction children as [|child rest IH];
    intros out w r out' w' H; simpl in H.
  - inversion H; subst. exists []. now rewrite app_nil_r.
  - destruct (StatFile _ w) as [[st|e] w1] eqn:Hst.
    2:{ inversion H; subst. exists []. now rewrite app_nil_r. }
    assert (Hpush : exists pushed,
               (if negb (FileType_eqb (type st) NonExistent)
                then out ++ [st] else out) = out ++ pushed
               /\ Forall (P dir_fn d) pushed).
    { destruct (FileType_eqb (type st) NonExistent) eqn:T; simpl.
      - exists []. now rewrite app_nil_r.
      - exists [st]. split; [reflexivity|]. constructor; [|constructor].
        apply (P_child _ _ _ _ _ _ Hst). now apply FileType_eqb_neq. }
    destruct Hpush as (pushed & Hout & Hp). rewrite Hout in H.
    destruct (descends select d st) eqn:D.
    + destruct (descends_true _ _ _ D) as (Hd & Hrec & _).
      destruct (self _ (out ++ pushed) w1) as [[[[u|e] out2] w2]|] eqn:S;
        [| |discriminate].
      * destruct (Hself _ _ _ _ _ _ Hd Hrec S) as (sub & -> & Hsub).
        destruct (IH _ _ _ _ _ H) as (later & -> & Hlater).
        exists (pushed ++ sub ++ later). split; [now rewrite <- !app_assoc|].
        repeat (apply Forall_app; split); assumption.
      * inversion H; subst.
        destruct (Hself _ _ _ _ _ _ Hd Hrec S) as (sub & -> & Hsub).
        exists (pushed ++ sub). split; [now rewrite <- app_assoc|].
        apply Forall_app; split; assumption.
    + destruct (IH _ _ _ _ _ H) as (later & -> & Hlater).
      exists (pushed ++ later). split; [now rewrite <- app_assoc|].
      apply Forall_app; split; assumption.
Qed.

Lemma StatSelector_fuel_entries (fuel : nat) :
  forall dir_fn d out w r out' w',
    with_fuel fuel dir_fn select d out w = Some (r, out', w') ->
    exists new, out' = out ++ new /\ Forall (P dir_fn d) new.
Proof.
  induction fuel as [|fuel IH]; intros dir_fn d out w r out' w' H;
    simpl in H; [discriminate|].
  destruct (ListDir env dir_fn w) as [[children|status] w1].
  - eapply StatSelector_children_entries; [|exact H].
    intros child out0 w0 r0 out0' w0' Hd Hrec Hs.
    destruct (IH _ _ _ _ _ _ _ Hs) as (new & -> & Hnew).
    exists new. split; [reflexivity|].
    apply Forall_impl with (2 := Hnew). intros st. now apply P_parent.
  - exists []. rewrite app_nil_r. split; [|constructor].
    inversion H as [H']. unfold StatSelector_listing_failed in H'.
    destruct (allow_non_existent select && IsIOError status).
    + destruct (FileExists env dir_fn w1) as [[[|]|e] w2]; simpl in H';
        congruence.
    + congruence.
Qed.

Lemma StatSelector_entries dir_fn d out w r out' w' :
  StatSelector env StatFile dir_fn select d out w = (r, out', w') ->
  exists new, out' = out ++ new /\ Forall (P dir_fn d) new.
Proof.
  intros H. apply (StatSelector_fuel_entries (StatSelector_depth select d))
              with (w := w) (r := r) (w' := w').
  rewrite StatSelector_fuel_enough by apply Nat.le_refl. now f_equal.
Qed.

End Entries.

(** Every failure of the selector is a failure a collaborator answered. *)
Lemma StatSelector_children_failure self dir_fn d children :
  (forall full out w e out' w',
      self full out w = Some (Err e, out', w') ->
      answered_by_collaborator env StatFile e) ->
  forall out w e out' w',
    children_loop self dir_fn select d children out w = Some (Err e, out', w') ->
    answered_by_collaborator env StatFile e.
Proof.
  intros Hself. induction children as [|child rest IH];
    intros out w e out' w' H; simpl in H; [discriminate|].
  destruct (StatFile _ w) as [[st|e0] w1] eqn:Hst.
  - destruct (descends select d st).
    + destruct (self _ _ w1) as [[[[u|e1] out2] w2]|] eqn:S; [| |discriminate].
      * eapply IH; eassumption.
      * inversion H; subst. eapply Hself; eassumption.
    + eapply IH; eassumption.
  - inversion H; subst. right. right. eauto.
Qed.

Lemma StatSelector_fuel_failure (fuel : nat) :
  forall dir_fn d out w e out' w',
    with_fuel fuel dir_fn select d out w = Some (Err e, out', w') ->
    answered_by_collaborator env StatFile e.
Proof.
  induction fuel as [|fuel IH]; intros dir_fn d out w e out' w' H;
    simpl in H; [discriminate|].
  destruct (ListDir env dir_fn w) as [[children|status] w1] eqn:L.
  - eapply StatSelector_children_failure; [|exact H].
    intros full out0 w0 e0 out0' w0' Hs. exact (IH _ _ _ _ _ _ _ Hs).
  - inversion H as [H']. unfold StatSelector_listing_failed in H'.
    destruct (allow_non_existent select && IsIOError status).
    + destruct (FileExists env dir_fn w1) as [[[|]|e1] w2] eqn:F;
        simpl in H'; inversion H'; subst.
      * left. eauto.
      * right. left. eauto.
    + inversion H'; subst. left. eauto.
Qed.

End SelectorEntries.

Section SelectorFurther.
Context {World N PF IS OS : Type} (env : Env World N PF IS OS).
Variable StatFile : N -> M World FileStats.
Variable select : Selector.

(** X1. [StatSelector] only appends to its accumulator: called on [out] it
    leaves [out] followed by exactly what it leaves when called on the
    empty sequence, with the same status and the same world, whether it
    succeeds or fails. *)
Theorem StatSelector_only_appends :
  forall dir_fn d out w,
    StatSelector env StatFile dir_fn select d out w
    = let '(r, new, w') := StatSelector env StatFile dir_fn select d [] w in
      (r, out ++ new, w').
Proof. intros. apply StatSelector_framed. Qed.

(** X2. No record of a missing entity is ever appended: if no record of
    [out] has type [NonExistent], none has in what [StatSelector] leaves,
    and none has in a sequence [GetTargetStats(Selector)] returns. *)
Theorem StatSelector_no_NonExistent :
  (forall dir_fn d out w r out' w',
      StatSelector env StatFile dir_fn select d out w = (r, out', w') ->
      Forall (fun st => type st <> NonExistent) out ->
      Forall (fun st => type st <> NonExistent) out')
  /\ (forall w results w',
         LocalFileSystem.GetTargetStats_Selector env StatFile select w
         = (Ok results, w') ->
         Forall (fun st => type st <> NonExistent) results).
Proof.
  assert (Hsel : forall dir_fn d out w r out' w',
             StatSelector env StatFile dir_fn select d out w = (r, out', w') ->
             Forall (fun st => type st <> NonExistent) out ->
             Forall (fun st => type st <> NonExistent) out').
  { intros dir_fn d out w r out' w' H Hout.
    destruct (StatSelector_entries env StatFile select
                (fun _ _ st => type st <> NonExistent)
                (fun _ _ _ _ _ _ _ Ht => Ht) (fun _ _ _ _ _ _ Ht => Ht)
                _ _ _ _ _ _ _ H) as (new & -> & Hnew).
    apply Forall_app. split; assumption. }
  split; [exact Hsel|].
  intros w results w' H. unfold LocalFileSystem.GetTargetStats_Selector in H.
  destruct (FromString env (base_dir select)) as [fn|e]; [|discriminate].
  cbv [bind lift] in H.
  destruct (StatSelector env StatFile fn select 0 [] w)
    as [[[u|e] out'] w1] eqn:S; [|discriminate].
  inversion H; subst. apply (Hsel _ _ _ _ _ _ _ S). constructor.
Qed.


(** X4. The order is a pre-order: when the loop meets an entry it descends
    into, what it appends is the record of that entry, then everything the
    call on that entry appends, then everything the rest of the loop
    appends. *)
Theorem StatSelector_preorder :
  forall dir_fn d child rest out w st w1 sub w2 r later w3,
    StatFile (ToNative env (Join env dir_fn child)) w = (Ok st, w1) ->
    descends select d st = true ->
    StatSelector env StatFile (Join env dir_fn child) select (d + 1) [] w1
    = (Ok tt, sub, w2) ->
    StatSelector_loop env StatFile dir_fn select d rest [] w2
    = (r, later, w3) ->
    StatSelector_loop env StatFile dir_fn select d (child :: rest) out w
    = (r, out ++ [st] ++ sub ++ later, w3).
Proof.
  intros dir_fn d child rest out w st w1 sub w2 r later w3 Hst D Hsub Hrest.
  rewrite StatSelector_loop_cons. simpl. rewrite Hst, D.
  destruct (descends_true _ _ _ D) as (_ & _ & Hdir). rewrite Hdir. simpl.
  rewrite StatSelector_framed, Hsub.
  rewrite StatSelector_loop_framed, Hrest.
  now rewrite <- !app_assoc.
Qed.

(** X5. The selector has no failure of its own: a failure of
    [StatSelector] is a failure that [ListDir], [FileExists] or [StatFile]
    answered, and a failure of [GetTargetStats(Selector)] is one of those
    or the failure of the resolver on [base_dir]. *)
Theorem StatSelector_failure_origin :
  (forall dir_fn d out w e out' w',
      StatSelector env StatFile dir_fn select d out w = (Err e, out', w') ->
      answered_by_collaborator env StatFile e)
  /\ (forall w e w',
         LocalFileSystem.GetTargetStats_Selector env StatFile select w
         = (Err e, w') ->
         FromString env (base_dir select) = Err e
         \/ answered_by_collaborator env StatFile e).
Proof.
  assert (Hsel : forall dir_fn d out w e out' w',
             StatSelector env StatFile dir_fn select d out w
             = (Err e, out', w') ->
             answered_by_collaborator env StatFile e).
  { intros dir_fn d out w e out' w' H.
    apply (StatSelector_fuel_failure env StatFile select
             (StatSelector_depth select d) dir_fn d out w e out' w').
    rewrite StatSelector_fuel_enough by apply Nat.le_refl. now f_equal. }
  split; [exact Hsel|].
  intros w e w' H. unfold LocalFileSystem.GetTargetStats_Selector in H.
  destruct (FromString env (base_dir select)) as [fn|e0].
  - cbv [bind lift] in H.
    destruct (StatSelector env StatFile fn select 0 [] w)
      as [[[u|e1] out'] w1] eqn:S; [discriminate|].
    inversion H; subst. right. exact (Hsel _ _ _ _ _ _ _ S).
  - cbv [bind lift] in H. inversion H; subst. now left.
Qed.

Lemma StatSelector_loop_vanished dir_fn d children :
  forall out w w',
    vanished_along env StatFile dir_fn children w w' ->
    StatSelector_loop env StatFile dir_fn select d children out w
    = (Ok tt, out, w').
Proof.
  induction children as [|child rest IH]; intros out w w' H;
    inversion H; subst.
  - reflexivity.
  - rewrite StatSelector_loop_cons. simpl.
    match goal with Hst : StatFile _ w = _ |- _ => rewrite Hst end.
    match goal with Ht : type _ = NonExistent |- _ =>
      unfold descends; rewrite Ht end.
    simpl. rewrite andb_false_r. now apply IH.
Qed.

Lemma vanished_along_entries dir_fn children :
  (forall child, In child children ->
     forall w0, exists st w0',
       StatFile (ToNative env (Join env dir_fn child)) w0 = (Ok st, w0')
       /\ type st = NonExistent) ->
  forall w, exists w', vanished_along env StatFile dir_fn children w w'.
Proof.
  induction children as [|child rest IH]; intros Hgone w.
  - exists w. constructor.
  - destruct (Hgone child (or_introl eq_refl) w) as (st & w1 & Hst & Ht).
    destruct (IH (fun c Hc => Hgone c (or_intror Hc)) w1) as (w' & Hrest).
    exists w'. econstructor; eassumption.
Qed.

(** X6. When the listing of a directory succeeds, then whatever the flags
    of the selector: an empty listing gives success with nothing appended,
    in the world the listing left; a listing whose entries are each
    answered [NonExistent] when they are stated, one after the other,
    gives success with nothing appended, in the world the last stat left;
    and so does a listing each entry of which is answered [NonExistent] in
    every state of the world. *)
Theorem StatSelector_all_vanished :
  forall dir_fn d out w children w1,
    ListDir env dir_fn w = (Ok children, w1) ->
    (children = [] ->
     StatSelector env StatFile dir_fn select d out w = (Ok tt, out, w1))
    /\ (forall w',
           vanished_along env StatFile dir_fn children w1 w' ->
           StatSelector env StatFile dir_fn select d out w = (Ok tt, out, w'))
    /\ ((forall child, In child children ->
            forall w0, exists st w0',
              StatFile (ToNative env (Join env dir_fn child)) w0 = (Ok st, w0')
              /\ type st = NonExistent) ->
        exists w',
          StatSelector env StatFile dir_fn select d out w = (Ok tt, out, w')).
Proof.
  intros dir_fn d out w children w1 Hlist.
  rewrite StatSelector_eq, Hlist. split; [|split].
  - intros ->. reflexivity.
  - intros w' H. now apply StatSelector_loop_vanished.
  - intros Hgone.
    destruct (vanished_along_entries dir_fn children Hgone w1) as (w' & H).
    exists w'. now apply StatSelector_loop_vanished.
Qed.

End SelectorFurther.

(** ** The time conversions *)

Lemma to_int64_small (z : Z) : - 2 ^ 63 <= z < 2 ^ 63 -> to_int64 z = z.
Proof. intros H. unfold to_int64. rewrite Z.mod_small; lia. Qed.

Lemma Posix_ToTimePoint_value (s : timespec) :
  timespec_in_range s ->
  Posix.ToTimePoint s = tv_sec s * 1000000000 + tv_nsec s.
Proof.
  intros [Hs Hn]. unfold Posix.ToTimePoint.
  rewrite (to_int64_small (tv_sec s)) by lia.
  rewrite (to_int64_small (tv_nsec s)) by lia.
  rewrite (to_int64_small (tv_sec s * 1000000000)) by lia.
  apply to_int64_small. lia.
Qed.

Lemma Win32_ToTimePoint_value (ft : FILETIME) :
  filetime_in_range ft ->
  Win32.ToTimePoint ft = 100 * (filetime_count ft - Win32.kFileTimeEpoch).
Proof.
  unfold filetime_in_range, filetime_count, Win32.kFileTimeEpoch.
  intros (Hl & Hh & Hr). unfold Win32.ToTimePoint, Win32.kFileTimeEpoch.
  rewrite Z.shiftl_mul_pow2 by lia.
  rewrite (to_int64_small (dwHighDateTime ft * 2 ^ 32)) by lia.
  rewrite (to_int64_small (dwHighDateTime ft * 2 ^ 32 + dwLowDateTime ft))
    by lia.
  rewrite (to_int64_small (_ - _)) by lia.
  apply to_int64_small. lia.
Qed.

Lemma filetime_count_of (t : Z) : filetime_count (filetime_of t) = t.
Proof.
  unfold filetime_count, filetime_of. cbn [dwLowDateTime dwHighDateTime].
  pose proof (Z.div_mod t (2 ^ 32)). lia.
Qed.

(** X7. On the time stamps whose count of nanoseconds fits an [int64_t]
    (seconds from -9223372036 to 9223372035, nanoseconds below 10^9), the
    POSIX conversion is exact, keeps the order of time stamps and tells
    any two of them apart. *)
Theorem Posix_ToTimePoint_order :
  forall s1 s2 : timespec,
    timespec_in_range s1 -> timespec_in_range s2 ->
    Posix.ToTimePoint s1 = tv_sec s1 * 1000000000 + tv_nsec s1
    /\ (Posix.ToTimePoint s1 < Posix.ToTimePoint s2
        <-> tv_sec s1 < tv_sec s2
            \/ (tv_sec s1 = tv_sec s2 /\ tv_nsec s1 < tv_nsec s2))
    /\ (Posix.ToTimePoint s1 = Posix.ToTimePoint s2 -> s1 = s2).
Proof.
  intros s1 s2 H1 H2.
  rewrite (Posix_ToTimePoint_value s1 H1), (Posix_ToTimePoint_value s2 H2).
  destruct H1 as [Ha Hb], H2 as [Hc Hd].
  split; [reflexivity|]. split; [lia|].
  intros H. destruct s1 as [a b], s2 as [c d]. simpl in *.
  assert (a = c) by lia. assert (b = d) by lia. congruence.
Qed.

(** X8. On Windows the conversion shifts the epoch exactly: a [FILETIME]
    in range becomes 100 times the distance of its count to
    116444736000000000, the count of the Unix epoch, and the order of
    counts is kept. *)
Theorem Win32_ToTimePoint_epoch_shift :
  forall ft1 ft2 : FILETIME,
    filetime_in_range ft1 -> filetime_in_range ft2 ->
    Win32.ToTimePoint ft1 = 100 * (filetime_count ft1 - 116444736000000000)
    /\ (Win32.ToTimePoint ft1 < Win32.ToTimePoint ft2
        <-> filetime_count ft1 < filetime_count ft2).
Proof.
  intros ft1 ft2 H1 H2.
  rewrite (Win32_ToTimePoint_value ft1 H1), (Win32_ToTimePoint_value ft2 H2).
  unfold Win32.kFileTimeEpoch. split; [reflexivity | lia].
Qed.

(** X9. The two platforms agree: an instant stamped on POSIX as [sec]
    seconds and [100 * k] nanoseconds, and on Windows as the count
    [(sec + 11644473600) * 10^7 + k], becomes the same [TimePoint]. *)
Theorem ToTimePoint_platforms_agree :
  forall sec k : Z,
    -9223372036 <= sec <= 9223372035 -> 0 <= k < 10000000 ->
    Win32.ToTimePoint (filetime_of ((sec + 11644473600) * 10000000 + k))
    = Posix.ToTimePoint (mkTimespec sec (100 * k)).
Proof.
  intros sec k Hs Hk.
  rewrite Posix_ToTimePoint_value
    by (unfold timespec_in_range; cbn [tv_sec tv_nsec]; lia).
  rewrite Win32_ToTimePoint_value.
  - rewrite filetime_count_of. unfold Win32.kFileTimeEpoch.
    cbn [tv_sec tv_nsec]. lia.
  - unfold filetime_in_range. rewrite filetime_count_of.
    unfold filetime_of, Win32.kFileTimeEpoch.
    cbn [dwLowDateTime dwHighDateTime].
    split; [apply Z.mod_pos_bound; lia|]. split; [|lia].
    split; [apply Z.div_pos; lia|].
    apply Z.div_lt_upper_bound; lia.
Qed.

(** ** What StatFile answers, and when *)

Lemma StatToFileStat_exists (s : struct_stat) :
  type (Posix.StatToFileStat s) <> NonExistent.
Proof.
  rewrite StatToFileStat_cases. simpl.
  destruct (S_ISREG _); [|destruct (S_ISDIR _)]; discriminate.
Qed.

Lemma FileInformationToFileStat_exists (info : BY_HANDLE_FILE_INFORMATION) :
  type (Win32.FileInformationToFileStat info) <> NonExistent.
Proof.
  rewrite FileInformationToFileStat_cases. simpl.
  destruct (_ =? 0); discriminate.
Qed.

Lemma Posix_StatFile_Err
  {World PF IS OS : Type} (penv : Env World string PF IS OS) path_ w w1 e :
  Posix.StatFile penv path_ w = (Err e, w1) ->
  stat penv path_ w = (None, w1)
  /\ is_missing_errno (errno penv w1) = false
  /\ e = mkStatus IOError
           ("Failed stat()ing path '" ++ path_ ++ "'"
            ++ ErrnoMessage penv (errno penv w1))%string.
Proof.
  intros H. destruct (stat penv path_ w) as [[s|] w'] eqn:E.
  - rewrite (Posix_StatFile_found penv _ _ _ _ E) in H. discriminate.
  - rewrite (Posix_StatFile_failed penv _ _ _ E) in H.
    destruct (is_missing_errno _) eqn:M; inversion H; subst. auto.
Qed.

Lemma Win32_StatFile_Err
  {World N PF IS OS : Type} (wenv : Env World N PF IS OS) path_ w w' e :
  Win32.StatFile wenv path_ w = (Err e, w') ->
  e = querying_failed wenv (NativeToString wenv path_) w'.
Proof.
  intros H. destruct (CreateFileW wenv path_ w) as [[h|] w1] eqn:E1.
  - destruct (GetFileInformationByHandle wenv h w1) as [[info|] w2] eqn:E2.
    + rewrite (Win32_StatFile_found wenv _ _ _ _ _ _ E1 E2) in H.
      discriminate.
    + rewrite (Win32_StatFile_no_info wenv _ _ _ _ _ E1 E2) in H.
      inversion H; subst. reflexivity.
  - rewrite (Win32_StatFile_no_handle wenv _ _ _ E1) in H.
    destruct (is_missing_error _); inversion H; subst. reflexivity.
Qed.

(** X10. [StatFile] answers [NonExistent] exactly when the native call
    could not reach the entity: on POSIX when [stat] returned -1 (with one
    of the three error numbers, any other being a failure), on Windows
    when no handle could be opened. An entity whose metadata was read is
    never reported missing. *)
Theorem StatFile_NonExistent_iff :
  forall (World N PF IS OS : Type)
         (penv : Env World string PF IS OS) (wenv : Env World N PF IS OS),
    (forall path_ w st w1,
        Posix.StatFile penv path_ w = (Ok st, w1) ->
        (type st = NonExistent <-> stat penv path_ w = (None, w1)))
    /\ (forall path_ w st w1,
           Win32.StatFile wenv path_ w = (Ok st, w1) ->
           (type st = NonExistent <-> CreateFileW wenv path_ w = (None, w1))).
Proof.
  intros World N PF IS OS penv wenv. split.
  - intros path_ w st w1 H.
    destruct (Posix_StatFile_Ok penv _ _ _ _ H)
      as [(Hs & _ & ->)|(s & Hs & ->)].
    + simpl. tauto.
    + split.
      * intros Ht. now apply StatToFileStat_exists in Ht.
      * intros Hn. congruence.
  - intros path_ w st w1 H.
    destruct (Win32_StatFile_Ok wenv _ _ _ _ H)
      as [(Hs & _ & ->)|(h & wa & wb & info & H1 & H2 & -> & ->)].
    + simpl. tauto.
    + split.
      * intros Ht. now apply FileInformationToFileStat_exists in Ht.
      * intros Hn. congruence.
Qed.

(** X11. Every failure of [StatFile] is an IOError, on both platforms, so
    StatOne fails either with the failure of the resolver or with an
    IOError. *)
Theorem StatFile_fails_with_IOError :
  forall (World N PF IS OS : Type)
         (penv : Env World string PF IS OS) (wenv : Env World N PF IS OS),
    (forall path_ w e w1,
        Posix.StatFile penv path_ w = (Err e, w1) -> code e = IOError)
    /\ (forall path_ w e w1,
           Win32.StatFile wenv path_ w = (Err e, w1) -> code e = IOError)
    /\ (forall p w e w1,
           LocalFileSystem.GetTargetStats penv (Posix.StatFile penv) p w
           = (Err e, w1) ->
           (FromString penv p = Err e /\ w1 = w) \/ code e = IOError)
    /\ (forall p w e w1,
           LocalFileSystem.GetTargetStats wenv (Win32.StatFile wenv) p w
           = (Err e, w1) ->
           (FromString wenv p = Err e /\ w1 = w) \/ code e = IOError).
Proof.
  intros World N PF IS OS penv wenv.
  assert (HP : forall path_ w e w1,
             Posix.StatFile penv path_ w = (Err e, w1) -> code e = IOError).
  { intros path_ w e w1 H.
    destruct (Posix_StatFile_Err penv _ _ _ _ H) as (_ & _ & ->).
    reflexivity. }
  assert (HW : forall path_ w e w1,
             Win32.StatFile wenv path_ w = (Err e, w1) -> code e = IOError).
  { intros path_ w e w1 H. rewrite (Win32_StatFile_Err wenv _ _ _ _ H).
    reflexivity. }
  split; [exact HP|]. split; [exact HW|]. split.
  - intros p w e w1 H. unfold LocalFileSystem.GetTargetStats in H.
    destruct (FromString penv p) as [fn|e0]; cbv [bind lift] in H.
    + right. exact (HP _ _ _ _ H).
    + inversion H; subst. left. auto.
  - intros p w e w1 H. unfold LocalFileSystem.GetTargetStats in H.
    destruct (FromString wenv p) as [fn|e0]; cbv [bind lift] in H.
    + right. exact (HW _ _ _ _ H).
    + inversion H; subst. left. auto.
Qed.

(** X12. On Windows a handle that was opened is always closed: whatever
    [GetFileInformationByHandle] answers, and whether [StatFile] succeeds
    or fails, the world it leaves is the one [CloseHandle] leaves after
    the query. *)
Theorem Win32_StatFile_closes_handle :
  forall (World N PF IS OS : Type) (wenv : Env World N PF IS OS)
         path_ w h w1,
    CreateFileW wenv path_ w = (Some h, w1) ->
    snd (Win32.StatFile wenv path_ w)
    = CloseHandle wenv h (snd (GetFileInformationByHandle wenv h w1)).
Proof.
  intros World N PF IS OS wenv path_ w h w1 H.
  destruct (GetFileInformationByHandle wenv h w1) as [[info|] w2] eqn:E.
  - now rewrite (Win32_StatFile_found wenv _ _ _ _ _ _ H E).
  - now rewrite (Win32_StatFile_no_info wenv _ _ _ _ _ H E).
Qed.

(** ** Copy, move and open *)

Section FacadeFurther.
Context {World N PF IS OS : Type} (env : Env World N PF IS OS).
Variable StatFile : N -> M World FileStats.
Variable options_ : LocalFileSystemOptions.

(** X13. On POSIX, when source and destination resolve to different
    native paths, [CopyFile] opens the source first: if that fails the
    failure is returned and the destination is not opened, so it is
    neither created nor truncated; if opening the destination fails that
    failure is returned and nothing is copied; and when the copy in chunks
    of 1 MiB and the closing of the destination succeed, the answer is the
    one of closing the source. *)
Theorem CopyFile_opens_source_first :
  forall src dest sfn dfn w,
    FromString env src = Ok sfn ->
    FromString env dest = Ok dfn ->
    ToNative env sfn <> ToNative env dfn ->
    (forall e w1,
        LocalFileSystem.OpenInputStream env options_ src w = (Err e, w1) ->
        LocalFileSystem.CopyFile env POSIX options_ src dest w = (Err e, w1))
    /\ (forall is_ w1 e w2,
           LocalFileSystem.OpenInputStream env options_ src w = (Ok is_, w1) ->
           LocalFileSystem.OpenOutputStream env dest w1 = (Err e, w2) ->
           LocalFileSystem.CopyFile env POSIX options_ src dest w
           = (Err e, w2))
    /\ (forall is_ w1 os w2 w3 w4,
           LocalFileSystem.OpenInputStream env options_ src w = (Ok is_, w1) ->
           LocalFileSystem.OpenOutputStream env dest w1 = (Ok os, w2) ->
           CopyStream env is_ os 1048576 w2 = (Ok tt, w3) ->
           OutputStream_Close env os w3 = (Ok tt, w4) ->
           LocalFileSystem.CopyFile env POSIX options_ src dest w
           = InputStream_Close env is_ w4).
Proof.
  intros src dest sfn dfn w Hs Hd Hneq.
  assert (Hcopy :
            LocalFileSystem.CopyFile env POSIX options_ src dest w
            = bind (LocalFileSystem.OpenInputStream env options_ src)
                (fun is_ =>
                   bind (LocalFileSystem.OpenOutputStream env dest)
                     (fun os =>
                        bind (CopyStream env is_ os (1024 * 1024))
                          (fun _ =>
                             bind (OutputStream_Close env os)
                               (fun _ => InputStream_Close env is_)))) w).
  { unfold LocalFileSystem.CopyFile. rewrite Hs, Hd.
    unfold bind at 1 2. unfold lift.
    destruct (native_eq_dec env (ToNative env sfn) (ToNative env dfn));
      [contradiction | reflexivity]. }
  rewrite Hcopy. split; [|split].
  - intros e w1 Hi. now apply bind_Err.
  - intros is_ w1 e w2 Hi Ho. rewrite (bind_Ok _ _ _ _ _ Hi).
    now apply bind_Err.
  - intros is_ w1 os w2 w3 w4 Hi Ho Hc Hx.
    rewrite (bind_Ok _ _ _ _ _ Hi), (bind_Ok _ _ _ _ _ Ho).
    change (1024 * 1024) with 1048576.
    rewrite (bind_Ok _ _ _ _ _ Hc), (bind_Ok _ _ _ _ _ Hx). reflexivity.
Qed.

(** X14. [Move] fails in three ways only: with the failure of the resolver
    on the source, the world untouched; with the failure of the resolver
    on the destination once the source has resolved, the world untouched;
    or, after the native call, with an IOError whose message names both
    paths in their string form and ends with the native error text. *)
Theorem Move_failures :
  forall platform src dest w e w1,
    LocalFileSystem.Move env platform src dest w = (Err e, w1) ->
    (FromString env src = Err e /\ w1 = w)
    \/ (exists sfn,
           FromString env src = Ok sfn
           /\ FromString env dest = Err e /\ w1 = w)
    \/ (exists sfn dfn,
           FromString env src = Ok sfn
           /\ FromString env dest = Ok dfn
           /\ e = mkStatus IOError
                    ("Failed renaming '" ++ ToString env sfn ++ "' to '"
                     ++ ToString env dfn ++ "': "
                     ++ match platform with
                        | POSIX => ErrnoMessage env (errno env w1)
                        | Windows => WinErrorMessage env (GetLastError env w1)
                        end)%string).
Proof.
  intros platform src dest w e w1 H. unfold LocalFileSystem.Move in H.
  destruct (FromString env src) as [sfn|e0] eqn:Hs; cbv [bind lift] in H.
  2:{ inversion H; subst. left. auto. }
  destruct (FromString env dest) as [dfn|e0] eqn:Hd.
  2:{ inversion H; subst. right. left. eauto. }
  right. right. exists sfn, dfn. split; [reflexivity|].
  split; [reflexivity|]. destruct platform.
  - destruct (rename env _ _ w) as [r w2].
    destruct (r =? -1); inversion H; subst. reflexivity.
  - destruct (MoveFileExW env _ _ w) as [moved w2].
    destruct moved; inversion H; subst. reflexivity.
Qed.

(** X15. No descriptor is left behind: when the descriptor was obtained
    and the construction of the stream on it fails, [OpenOutputStream] and
    [OpenAppendStream] close the descriptor and return the failure of the
    construction, whatever the closing answers. The first opens with
    truncation and without appending, the second the other way round. *)
Theorem OpenOutputStream_closes_descriptor :
  forall p fn w fd w1 st w2,
    FromString env p = Ok fn ->
    FileOutputStream_Open env fd w1 = (Err st, w2) ->
    (FileOpenWritable env fn true true false w = (Ok fd, w1) ->
     LocalFileSystem.OpenOutputStream env p w
     = (Err st, snd (FileClose env fd w2)))
    /\ (FileOpenWritable env fn true false true w = (Ok fd, w1) ->
        LocalFileSystem.OpenAppendStream env p w
        = (Err st, snd (FileClose env fd w2))).
Proof.
  intros p fn w fd w1 st w2 Hp Hopen.
  split; intros Hfd;
    unfold LocalFileSystem.OpenOutputStream, LocalFileSystem.OpenAppendStream,
      LocalFileSystem.OpenOutputStreamGeneric;
    rewrite Hp; cbv [bind lift]; rewrite Hfd, Hopen;
    destruct (FileClose env fd w2); reflexivity.
Qed.

End FacadeFurther.

(** ** The further properties on the concrete world *)

Local Open Scope string_scope.

(** X2 on [/tmp/t]: the three records found are records of entities that
    exist. *)
Lemma StatSelector_no_NonExistent_witness :
  exists results w',
    LocalFileSystem.GetTargetStats_Selector Demo.env Demo.posix_stat
      (Demo.select_t false true 1) Demo.w0 = (Ok results, w')
    /\ List.length results = 3%nat
    /\ Forall (fun st => type st <> NonExistent) results.
Proof.
  eexists. eexists. split; [vm_compute; reflexivity|].
  split; [reflexivity|].
  refine (proj2 (StatSelector_no_NonExistent Demo.env Demo.posix_stat
                   (Demo.select_t false true 1)) Demo.w0 _ _ _).
  vm_compute. reflexivity.
Defined.



(** X4 on the directory [b] of [/tmp/t]: its record, then the record of
    the file [c] in it. *)
Lemma StatSelector_preorder_witness :
  exists w3,
    StatSelector_loop Demo.env Demo.posix_stat "/tmp/t"
      (Demo.select_t false true 1) 0 ["b"] [] Demo.w0
    = (Ok tt,
       [mkFileStats "/tmp/t/b" Directory kNoSize 1600000000000000000;
        mkFileStats "/tmp/t/b/c" File 5 1600000000000000000], w3).
Proof.
  eassert (H1 : Demo.posix_stat
                  (ToNative Demo.env (Join Demo.env "/tmp/t" "b")) Demo.w0
                = (Ok _, _)) by (vm_compute; reflexivity).
  match type of H1 with
  | _ = (Ok ?st, ?w1) =>
      eassert (H3 : StatSelector Demo.env Demo.posix_stat
                      (Join Demo.env "/tmp/t" "b")
                      (Demo.select_t false true 1) (0 + 1) [] w1
                    = (Ok tt, _, _)) by (vm_compute; reflexivity)
  end.
  match type of H3 with
  | _ = (_, ?sub, ?w2) =>
      eassert (H4 : StatSelector_loop Demo.env Demo.posix_stat "/tmp/t"
                      (Demo.select_t false true 1) 0 [] [] w2
                    = (_, _, _)) by (vm_compute; reflexivity)
  end.
  eexists.
  exact (StatSelector_preorder Demo.env Demo.posix_stat
           (Demo.select_t false true 1) "/tmp/t" 0 "b" [] [] Demo.w0
           _ _ _ _ _ _ _ H1 eq_refl H3 H4).
Defined.

(** X5 on [/root/x]: the failure is the one [FileExists] answered. *)
Lemma StatSelector_failure_origin_witness :
  answered_by_collaborator Demo.env Demo.posix_stat
    (mkStatus IOError "Failed getting information for path '/root/x'").
Proof.
  refine (proj1 (StatSelector_failure_origin Demo.env Demo.posix_stat
                   (mkSelector "/root/x" true false 0))
            "/root/x" 0 [] Demo.w0 _ _ _ _).
  vm_compute. reflexivity.
Defined.

(** X6 on [/tmp/t] with the listing that is out of date, the POSIX
    adapter answering [NonExistent] for both names; and on [/tmp/empty],
    whose listing is empty. *)
Lemma StatSelector_all_vanished_witness :
  (exists w',
      StatSelector env_stale_listing (Posix.StatFile env_stale_listing)
        "/tmp/t" (Demo.select_t false true 1) 0 [] Demo.w0 = (Ok tt, [], w')
      /\ Demo.journal w'
         = ["ListDir /tmp/t"; "stat /tmp/t/gone"; "stat /tmp/t/lost"])
  /\ (exists w',
         StatSelector env_stale_listing (Posix.StatFile env_stale_listing)
           "/tmp/empty" (Demo.select_t false true 1) 0 [] Demo.w0
         = (Ok tt, [], w')
         /\ Demo.journal w' = ["ListDir /tmp/empty"]).
Proof.
  split.
  - eexists. split.
    + refine (proj1 (proj2 (StatSelector_all_vanished env_stale_listing
                              (Posix.StatFile env_stale_listing)
                              (Demo.select_t false true 1) "/tmp/t" 0 []
                              Demo.w0 ["gone"; "lost"] _ eq_refl)) _ _).
      econstructor; [vm_compute; reflexivity | reflexivity |].
      econstructor; [vm_compute; reflexivity | reflexivity |].
      constructor.
    + reflexivity.
  - eexists. split.
    + exact (proj1 (StatSelector_all_vanished env_stale_listing
                      (Posix.StatFile env_stale_listing)
                      (Demo.select_t false true 1) "/tmp/empty" 0 []
                      Demo.w0 [] _ eq_refl) eq_refl).
    + reflexivity.
Defined.

(** X7 on two time stamps of the same second. *)
Lemma Posix_ToTimePoint_order_witness :
  Posix.ToTimePoint (mkTimespec 1600000000 0)
  < Posix.ToTimePoint (mkTimespec 1600000000 5).
Proof.
  apply (proj1 (proj2 (Posix_ToTimePoint_order
                         (mkTimespec 1600000000 0) (mkTimespec 1600000000 5)
                         ltac:(unfold timespec_in_range; simpl; lia)
                         ltac:(unfold timespec_in_range; simpl; lia)))).
  right. simpl. lia.
Defined.

(** X8 on the count of the Unix epoch itself: time point 0. *)
Lemma Win32_ToTimePoint_epoch_shift_witness :
  Win32.ToTimePoint (mkFiletime 3577643008 27111902) = 0.
Proof.
  rewrite (proj1 (Win32_ToTimePoint_epoch_shift
                    (mkFiletime 3577643008 27111902)
                    (mkFiletime 3577643008 27111902)
                    ltac:(unfold filetime_in_range, filetime_count,
                            Win32.kFileTimeEpoch; simpl; lia)
                    ltac:(unfold filetime_in_range, filetime_count,
                            Win32.kFileTimeEpoch; simpl; lia))).
  reflexivity.
Defined.

(** X9 on an instant of 2020. *)
Lemma ToTimePoint_platforms_agree_witness :
  Win32.ToTimePoint (filetime_of ((1600000000 + 11644473600) * 10000000 + 5))
  = Posix.ToTimePoint (mkTimespec 1600000000 (100 * 5)).
Proof. apply ToTimePoint_platforms_agree; lia. Defined.

(** X10 on a missing path. *)
Lemma StatFile_NonExistent_iff_witness :
  exists w1, stat Demo.env "/tmp/nothing" Demo.w0 = (None, w1).
Proof.
  eexists.
  refine (proj1 (proj1 (StatFile_NonExistent_iff _ _ _ _ _ Demo.env Demo.env)
                   "/tmp/nothing" Demo.w0 _ _ _) _);
    [vm_compute; reflexivity | reflexivity].
Defined.

(** X11 on a path that may not be looked at. *)
Lemma StatFile_fails_with_IOError_witness :
  exists e w1,
    Posix.StatFile Demo.env "/root/x" Demo.w0 = (Err e, w1)
    /\ code e = IOError.
Proof.
  eexists. eexists. split; [vm_compute; reflexivity|].
  refine (proj1 (StatFile_fails_with_IOError _ _ _ _ _ Demo.env Demo.env)
            "/root/x" Demo.w0 _ _ _).
  vm_compute. reflexivity.
Defined.

(** X12 on the file [a]: opened, then closed. *)
Lemma Win32_StatFile_closes_handle_witness :
  Demo.journal (snd (Win32.StatFile Demo.env "/tmp/t/a" Demo.w0))
  = ["CreateFileW /tmp/t/a"; "CloseHandle"].
Proof.
  rewrite (Win32_StatFile_closes_handle _ _ _ _ _ Demo.env "/tmp/t/a"
             Demo.w0 1 _ eq_refl).
  reflexivity.
Defined.

(** X13 on a missing source: only the attempt to open it is in the
    journal. *)
Lemma CopyFile_opens_source_first_witness :
  exists e w1,
    LocalFileSystem.CopyFile Demo.env POSIX (mkOptions false)
      "/tmp/nothing" "/tmp/t/a" Demo.w0 = (Err e, w1)
    /\ Demo.journal w1 = ["ReadableFile /tmp/nothing"].
Proof.
  eexists. eexists. split.
  - refine (proj1 (CopyFile_opens_source_first Demo.env (mkOptions false)
                     "/tmp/nothing" "/tmp/t/a" "/tmp/nothing" "/tmp/t/a"
                     Demo.w0 eq_refl eq_refl _) _ _ _).
    + vm_compute. discriminate.
    + vm_compute. reflexivity.
  - reflexivity.
Defined.

(** X14 on a missing source: the native failure, as an IOError. *)
Lemma Move_failures_witness :
  exists e w1,
    LocalFileSystem.Move Demo.env POSIX "/tmp/nothing" "/tmp/x" Demo.w0
    = (Err e, w1)
    /\ message e
       = "Failed renaming '/tmp/nothing' to '/tmp/x': No such file or directory".
Proof.
  eexists. eexists. split; [vm_compute; reflexivity|].
  destruct (Move_failures Demo.env POSIX "/tmp/nothing" "/tmp/x" Demo.w0
              _ _ eq_refl)
    as [[H _]|[(sfn & _ & H & _)|(sfn & dfn & Hs & Hd & _)]].
  - discriminate H.
  - discriminate H.
  - reflexivity.
Defined.

(** X15 with a stream class that fails: the descriptor is closed. *)
Lemma OpenOutputStream_closes_descriptor_witness :
  exists e w1,
    LocalFileSystem.OpenOutputStream env_broken_stream "/tmp/t/a" Demo.w0
    = (Err e, w1)
    /\ Demo.journal w1
       = ["FileOpenWritable /tmp/t/a"; "FileOutputStream fd"; "FileClose fd"].
Proof.
  eexists. eexists. split.
  - refine (proj1 (OpenOutputStream_closes_descriptor env_broken_stream
                     "/tmp/t/a" "/tmp/t/a" Demo.w0 3 _ _ _ eq_refl _) _);
      vm_compute; reflexivity.
  - reflexivity.
Defined.

Local Close Scope string_scope.

(** ** More on the facade and on the records of the selector *)

Section FacadeFailures.
Context {World N PF IS OS : Type} (env : Env World N PF IS OS).
Variable StatFile : N -> M World FileStats.
Variable options_ : LocalFileSystemOptions.

(** X16. On Windows [CopyFile] fails in three ways only: with the failure
    of the resolver on the source, with the failure of the resolver on the
    destination once the source has resolved (the world untouched in
    both), or, the two native paths being different and [CopyFileW]
    having answered no, with an IOError whose message names both paths in
    their string form and ends with the native error text. *)
Theorem CopyFile_Windows_failures :
  forall src dest w e w1,
    LocalFileSystem.CopyFile env Windows options_ src dest w = (Err e, w1) ->
    (FromString env src = Err e /\ w1 = w)
    \/ (exists sfn,
           FromString env src = Ok sfn
           /\ FromString env dest = Err e /\ w1 = w)
    \/ (exists sfn dfn,
           FromString env src = Ok sfn
           /\ FromString env dest = Ok dfn
           /\ ToNative env sfn <> ToNative env dfn
           /\ CopyFileW env (ToNative env sfn) (ToNative env dfn) false w
              = (false, w1)
           /\ e = mkStatus IOError
                    ("Failed copying '" ++ ToString env sfn ++ "' to '"
                     ++ ToString env dfn ++ "': "
                     ++ WinErrorMessage env (GetLastError env w1))%string).
Proof.
  intros src dest w e w1 H. unfold LocalFileSystem.CopyFile in H.
  destruct (FromString env src) as [sfn|e0] eqn:Hs; cbv [bind lift] in H.
  2:{ inversion H; subst. left. auto. }
  destruct (FromString env dest) as [dfn|e0] eqn:Hd.
  2:{ inversion H; subst. right. left. eauto. }
  destruct (native_eq_dec env (ToNative env sfn) (ToNative env dfn))
    as [Heq|Hneq]; [discriminate|].
  right. right. exists sfn, dfn.
  destruct (CopyFileW env _ _ false w) as [copied w2] eqn:C.
  destruct copied; inversion H; subst. auto.
Qed.

(** X17. Each of the three deletions fails in three ways only: with the
    failure of the resolver, the world untouched; with the failure of the
    delete primitive, as it is; or, the primitive having succeeded and
    reported that nothing was there, with the IOError "... does not
    exist: '<path>'". *)
Theorem delete_failures :
  forall p w e w1,
    (LocalFileSystem.DeleteDir env p w = (Err e, w1) ->
     (FromString env p = Err e /\ w1 = w)
     \/ exists fn,
         FromString env p = Ok fn
         /\ (DeleteDirTree env fn w = (Err e, w1)
             \/ (DeleteDirTree env fn w = (Ok false, w1)
                 /\ e = mkStatus IOError
                          ("Directory does not exist: '" ++ p ++ "'")%string)))
    /\ (LocalFileSystem.DeleteDirContents env p w = (Err e, w1) ->
        (FromString env p = Err e /\ w1 = w)
        \/ exists fn,
            FromString env p = Ok fn
            /\ (DeleteDirContents env fn w = (Err e, w1)
                \/ (DeleteDirContents env fn w = (Ok false, w1)
                    /\ e = mkStatus IOError
                             ("Directory does not exist: '" ++ p ++ "'")%string)))
    /\ (LocalFileSystem.DeleteFile env p w = (Err e, w1) ->
        (FromString env p = Err e /\ w1 = w)
        \/ exists fn,
            FromString env p = Ok fn
            /\ (DeleteFile env fn w = (Err e, w1)
                \/ (DeleteFile env fn w = (Ok false, w1)
                    /\ e = mkStatus IOError
                             ("File does not exist: '" ++ p ++ "'")%string))).
Proof.
  intros p w e w1.
  split; [|split]; intros H;
    unfold LocalFileSystem.DeleteDir, LocalFileSystem.DeleteDirContents,
      LocalFileSystem.DeleteFile in H;
    (destruct (FromString env p) as [fn|e0] eqn:Hp; cbv [bind lift ret] in H;
     [|inversion H; subst; left; auto]);
    right; exists fn; (split; [reflexivity|]).
  - destruct (DeleteDirTree env fn w) as [[[|]|e1] w2];
      inversion H; subst; auto.
  - destruct (DeleteDirContents env fn w) as [[[|]|e1] w2];
      inversion H; subst; auto.
  - destruct (DeleteFile env fn w) as [[[|]|e1] w2];
      inversion H; subst; auto.
Qed.

(** X18. The selector hands on the records of [StatFile] as they are:
    every record it appends is the answer [StatFile] gave for a child
    joined to some directory, in some state of the world. *)
Theorem StatSelector_records_from_StatFile :
  forall select dir_fn d out w r out' w',
    StatSelector env StatFile dir_fn select d out w = (r, out', w') ->
    exists new,
      out' = out ++ new
      /\ Forall (fun st =>
                   exists dir child w0 w1,
                     StatFile (ToNative env (Join env dir child)) w0
                     = (Ok st, w1)) new.
Proof.
  intros select dir_fn d out w r out' w' H.
  refine (StatSelector_entries env StatFile select
            (fun _ _ st =>
               exists dir child w0 w1,
                 StatFile (ToNative env (Join env dir child)) w0 = (Ok st, w1))
            _ _ _ _ _ _ _ _ _ H).
  - intros dir d0 child w0 st w1 Hst _. eauto.
  - intros dir d0 child st _ _ Hst. exact Hst.
Qed.

End FacadeFailures.

Local Open Scope string_scope.

(** X16 on a source that is not a file. *)
Lemma CopyFile_Windows_failures_witness :
  exists e w1,
    LocalFileSystem.CopyFile Demo.env Windows (mkOptions false)
      "/tmp/nothing" "/tmp/x" Demo.w0 = (Err e, w1)
    /\ message e
       = "Failed copying '/tmp/nothing' to '/tmp/x': The system cannot find the file specified.".
Proof.
  eexists. eexists. split; [vm_compute; reflexivity|].
  destruct (CopyFile_Windows_failures Demo.env (mkOptions false)
              "/tmp/nothing" "/tmp/x" Demo.w0 _ _ eq_refl)
    as [[H _]|[(sfn & _ & H & _)|(sfn & dfn & _)]].
  - discriminate H.
  - discriminate H.
  - reflexivity.
Defined.

(** X17 on a missing file. *)
Lemma delete_failures_witness :
  exists e w1,
    LocalFileSystem.DeleteFile Demo.env "/tmp/nothing" Demo.w0 = (Err e, w1)
    /\ exists fn,
        FromString Demo.env "/tmp/nothing" = Ok fn
        /\ (DeleteFile Demo.env fn Demo.w0 = (Err e, w1)
            \/ (DeleteFile Demo.env fn Demo.w0 = (Ok false, w1)
                /\ e = mkStatus IOError "File does not exist: '/tmp/nothing'")).
Proof.
  eexists. eexists. split; [vm_compute; reflexivity|].
  destruct (proj2 (proj2 (delete_failures Demo.env "/tmp/nothing" Demo.w0 _ _))
              eq_refl) as [[H _]|H].
  - discriminate H.
  - exact H.
Defined.

(** X18 on [/tmp/t]: the two records are answers of [StatFile]. *)
Lemma StatSelector_records_from_StatFile_witness :
  exists new,
    snd (fst (StatSelector Demo.env Demo.posix_stat "/tmp/t"
                (Demo.select_t false false 0) 0 [] Demo.w0)) = new
    /\ Forall (fun st =>
                 exists dir child w0 w1,
                   Demo.posix_stat (ToNative Demo.env (Join Demo.env dir child))
                     w0 = (Ok st, w1)) new.
Proof.
  destruct (StatSelector Demo.env Demo.posix_stat "/tmp/t"
              (Demo.select_t false false 0) 0 [] Demo.w0)
    as [[r out'] w'] eqn:E.
  destruct (StatSelector_records_from_StatFile Demo.env Demo.posix_stat
              _ _ _ _ _ _ _ _ E) as (new & -> & HF).
  exists new. split; [reflexivity | exact HF].
Defined.
